(** * armyknife-cli: the headless authentication core

    A shallow embedding of the Go sources of the authentication flow:

    - package [client]: the OAuth device-flow poller
      ([checkToken], [pollForToken], [AuthenticateDeviceFlow]);
    - package [config]: the persisted configuration
      ([Load], [Save], [IsAuthenticated]);
    - package [cmd]: the [auth] commands
      ([loginCmd], [isValidAPIKey], [exchangePATForAPIKey], [logoutCmd],
      [formatExpiryDate]).

    Conventions.
    - A Go [error] is represented by its [Error()] text; the code only ever
      inspects errors through that text.  [fmt.Errorf("p: %w", err)] is the
      text [p: ] followed by the text of [err].
    - A Go [(T, error)] result keeps both components, since the callers test
      them separately ([err != nil], [token != nil]).
    - Instants and durations are integers counting nanoseconds, as in
      package [time]; Go's [int] and [time.Duration] are 64-bit and their
      multiplication wraps around.
    - Go strings are [string]s (sequences of bytes); [len] is [String.length].
    - Everything outside the process (the token endpoint, the exchange
      endpoint, the file system, the clock) is an explicit argument.
    - Time passes while the process waits for a tick or for an HTTP reply.
      [pollForToken] reads the clock for its deadline, writes a line and
      only then creates its ticker: the time that takes is its argument
      [setup].  The other statements take no time. *)

From Stdlib Require Import ZArith String Ascii List Bool Lia Floats Uint63.
From stdpp Require Import gmap strings pretty.

Local Open Scope string_scope.
Local Open Scope Z_scope.

(** Go's [==] on strings. *)
Local Infix "==" := String.eqb (at level 70, no associativity).

(** ** Go results *)

(** The text of a Go error value. *)
Definition error := string.

(** [fmt.Errorf(prefix ++ "%w", err)] / [fmt.Errorf(prefix ++ "%s", s)]. *)
Definition Errorf (prefix : string) (err : error) : error := prefix +:+ err.

(** 64-bit two's complement wrap-around of an integer. *)
Definition wrap64 (z : Z) : Z := (z + 2 ^ 63) mod 2 ^ 64 - 2 ^ 63.

(** [time.Second], [time.Hour] in nanoseconds. *)
Definition Second : Z := 1000000000.
Definition Hour : Z := 3600 * Second.

(** The largest count of seconds whose nanoseconds fit a [time.Duration]. *)
Definition maxSeconds : Z := 9223372036.

(** ** Package config: the persisted configuration *)

Module config.

(** [type Config struct]. *)
Record Config := {
  APIURL : string;
  AccessToken : string;
  RefreshToken : string;
  TokenExpiry : string
}.

(** [var defaultConfig]. *)
Definition defaultConfig : Config :=
  {| APIURL := "https://test.armyknifelabs.com/api/v1";
     AccessToken := ""; RefreshToken := ""; TokenExpiry := "" |}.

(** The bytes of [~/.armyknife/config.json] as [encoding/json] sees them:
    a JSON object with string members, or bytes that [json.Unmarshal]
    rejects with [err]. *)
Inductive content :=
| Garbage (err : error)
| Object (members : gmap string string).

Inductive file :=
| Absent
| Unreadable (err : error)
| Present (c : content).

(** The file system as far as this package reads and writes it: the state
    kept is that of the one config file. [homeDir] and [mkdirAll] are the
    errors of [os.UserHomeDir] and [os.MkdirAll] (if any); [writeFile] is
    the error of [os.WriteFile] on the config file together with the state
    it leaves the file in (if it fails).  Whether the directory
    [~/.armyknife] exists is not recorded: [os.MkdirAll] creates it when it
    is missing, on every call of [GetConfigPath], and nothing here tells
    the two cases apart.  Statements about an [FS] are statements about the
    config file. *)
Record FS := {
  homeDir : option error;
  mkdirAll : option error;
  configFile : file;
  writeFile : option (error * file)
}.

Definition withFile (fs : FS) (f : file) : FS :=
  {| homeDir := homeDir fs; mkdirAll := mkdirAll fs;
     configFile := f; writeFile := writeFile fs |}.

(** [func GetConfigPath() (string, error)]: only the error is modelled, the
    path is always that of the one config file.  The directory that
    [os.MkdirAll] creates on the way is outside [FS]. *)
Definition GetConfigPath (fs : FS) : option error :=
  match homeDir fs with
  | Some err => Some (Errorf "failed to get home directory: " err)
  | None =>
      match mkdirAll fs with
      | Some err => Some (Errorf "failed to create config directory: " err)
      | None => None
      end
  end.

(** A struct member tagged [omitempty]. *)
Definition omitempty (key value : string) (m : gmap string string)
    : gmap string string :=
  if value == "" then m else <[key := value]> m.

(** [json.MarshalIndent(c, "", "  ")]: [api_url] is always written, the
    three token members only when non-empty.  The strings are taken to be
    valid UTF-8, which the encoder writes and the decoder reads back
    unchanged (any other byte it would replace by U+FFFD). *)
Definition Marshal (c : Config) : gmap string string :=
  omitempty "token_expiry" (TokenExpiry c)
    (omitempty "refresh_token" (RefreshToken c)
       (omitempty "access_token" (AccessToken c)
          (<["api_url" := APIURL c]> ∅))).

(** [json.Unmarshal(data, &cfg)] into a zero [Config]: a missing member
    leaves the empty string, unknown members are ignored. *)
Definition Unmarshal (m : gmap string string) : Config :=
  {| APIURL := default "" (m !! "api_url");
     AccessToken := default "" (m !! "access_token");
     RefreshToken := default "" (m !! "refresh_token");
     TokenExpiry := default "" (m !! "token_expiry") |}.

(** A Go result whose callers only test [err != nil]. *)
Inductive result (A : Type) :=
| Ok (a : A)
| Err (err : error).
Arguments Ok {A} a.
Arguments Err {A} err.

(** [func Load()]: the loaded configuration or an error.  Every command
    calls it once per run of the program. *)
Definition Load (fs : FS) : result Config :=
  match GetConfigPath fs with
  | Some err => Err err
  | None =>
      match configFile fs with
      | Absent => Ok defaultConfig
      | Unreadable err => Err (Errorf "failed to read config file: " err)
      | Present (Garbage err) =>
          Err (Errorf "failed to parse config file: " err)
      | Present (Object m) =>
          let cfg := Unmarshal m in
          if APIURL cfg == "" then
            Ok {| APIURL := APIURL defaultConfig;
                  AccessToken := AccessToken cfg;
                  RefreshToken := RefreshToken cfg;
                  TokenExpiry := TokenExpiry cfg |}
          else Ok cfg
      end
  end.

(** [func (c *Config) Save() error]: the error and the file system
    afterwards.  Marshalling a struct of strings cannot fail. *)
Definition Save (c : Config) (fs : FS) : option error * FS :=
  match GetConfigPath fs with
  | Some err => (Some err, fs)
  | None =>
      match writeFile fs with
      | Some (err, residue) =>
          (Some (Errorf "failed to write config file: " err),
           withFile fs residue)
      | None => (None, withFile fs (Present (Object (Marshal c))))
      end
  end.

(** [func (c *Config) IsAuthenticated() bool]. *)
Definition IsAuthenticated (c : Config) : bool :=
  negb (AccessToken c == "").

End config.

(** ** Package client: the device flow *)

Module client.

(** [type TokenResponse struct]. *)
Record TokenResponse := {
  AccessToken : string;
  RefreshToken : string;
  TokenType : string;
  ExpiresIn : Z;
  Error : string
}.

(** What one round trip of [checkToken] meets, in the order the code meets
    it: a failure of [http.NewRequest], [client.Do] or [io.ReadAll]; a body
    that [json.Unmarshal] rejects; or a body decoded into a
    [TokenResponse] (absent members decode to the zero value). *)
Inductive reply :=
| RequestFailed (err : error)
| Malformed (err : error)
| Body (tokenResp : TokenResponse).

(** One round trip: how long it took and what came back.  The HTTP client
    of [checkToken] is built with [Timeout: 10 * time.Second]. *)
Record exchange := { latency : Z; answer : reply }.

(** The token endpoint: the [k]-th POST ([k = 0, 1, ...]) of
    [{"device_code": deviceCode}] to [url]. *)
Definition endpoint := string -> string -> nat -> exchange.

(** [func checkToken(url, deviceCode string)], applied to the reply of the
    round trip; the result is the pair of a [TokenResponse] pointer and an
    error, either of which may be nil. *)
Definition checkToken (r : reply) : option TokenResponse * option error :=
  match r with
  | RequestFailed err => (None, Some err)
  | Malformed err => (None, Some err)
  | Body tokenResp =>
      if negb (Error tokenResp == "") then
        if (Error tokenResp == "authorization_pending")
           || (Error tokenResp == "slow_down")
        then (None, Some (Error tokenResp))
        else (None, Some (Errorf "token error: " (Error tokenResp)))
      else (Some tokenResp, None)
  end.

(** [time.Ticker]: the runtime fires at [next], [next + period], ...; the
    channel holds at most one tick, and a tick that finds it full is
    dropped. *)
Record Ticker := { period : Z; next : Z }.

(** [time.NewTicker(d)] at instant [now]; it panics when [d <= 0]. *)
Definition NewTicker (now d : Z) : option Ticker :=
  if d <=? 0 then None else Some {| period := d; next := now + d |}.

(** [<-ticker.C] entered at instant [t]: the instant the receive returns and
    the ticker afterwards.  When at least one tick has fired by [t] the
    buffered one is delivered at once and the ticks fired after it up to [t]
    were dropped; otherwise the receive blocks until [next]. *)
Definition recv (tk : Ticker) (t : Z) : Z * Ticker :=
  if next tk <=? t then
    (t, {| period := period tk;
           next := next tk + ((t - next tk) / period tk + 1) * period tk |})
  else
    (next tk, {| period := period tk; next := next tk + period tk |}).

(** How a call of [pollForToken] ends. [log] lists the instants at which
    [checkToken] was called, oldest first; [at] is the instant of the
    return. *)
Inductive outcome :=
| Panicked (msg : string)
| Running
| Returned (log : list Z) (at_ : Z) (token : option TokenResponse)
           (err : option error).

(** The [for { select { case <-ticker.C: ... } } }] loop of [pollForToken].
    [t] is the instant the [select] is entered, [log] the calls made so far;
    [Running] means the loop is still going after [fuel] iterations. *)
Fixpoint pollLoop (fuel : nat) (srv : endpoint) (url deviceCode : string)
    (timeout : Z) (ticker : Ticker) (t : Z) (log : list Z) : outcome :=
  match fuel with
  | O => Running
  | S fuel' =>
      let '(now, ticker') := recv ticker t in
      if timeout <? now then
        Returned log now None (Some "authorization timeout exceeded")
      else
        let x := srv url deviceCode (length log) in
        let t' := now + latency x in
        let log' := (log ++ [now])%list in
        match checkToken (answer x) with
        | (_, Some err) =>
            if (err == "authorization_pending") || (err == "slow_down")
            then pollLoop fuel' srv url deviceCode timeout ticker' t' log'
            else Returned log' t' None (Some err)
        | (Some token, None) => Returned log' t' (Some token) None
        | (None, None) =>
            pollLoop fuel' srv url deviceCode timeout ticker' t' log'
        end
  end.

(** The [url] of [pollForToken]. *)
Definition tokenURL (apiURL : string) : string :=
  apiURL +:+ "/auth/github/device/token".

(** The [timeout] of [pollForToken] entered at instant [start]:
    [time.Now().Add(time.Duration(expiresIn) * time.Second)]. *)
Definition deadline (start expiresIn : Z) : Z :=
  start + wrap64 (expiresIn * Second).

(** [func pollForToken(apiURL, deviceCode string, interval, expiresIn int)],
    entered at instant [start].  The clock is read for [timeout] at
    [start]; then [output.Info] writes its line, and [time.NewTicker] is
    called [setup] nanoseconds after the clock was read, at the instant
    [start + setup] from which the ticks are counted. *)
Definition pollForToken (fuel : nat) (srv : endpoint) (start setup : Z)
    (apiURL deviceCode : string) (interval expiresIn : Z) : outcome :=
  let url := tokenURL apiURL in
  let pollInterval := wrap64 (interval * Second) in
  let timeout := deadline start expiresIn in
  let created := start + setup in
  match NewTicker created pollInterval with
  | None => Panicked "non-positive interval for NewTicker"
  | Some ticker => pollLoop fuel srv url deviceCode timeout ticker created []
  end.

(** The replies that keep the loop going: a decoded body whose [error] is
    [authorization_pending] or [slow_down]. *)
Definition retriable (r : reply) : bool :=
  match r with
  | Body tokenResp =>
      (Error tokenResp == "authorization_pending")
      || (Error tokenResp == "slow_down")
  | _ => false
  end.

(** The state in which the [k]-th receive is entered when none of the first
    [k] iterations returned: instant and ticker. *)
Fixpoint entered (srv : endpoint) (url deviceCode : string)
    (ticker : Ticker) (t : Z) (k : nat) : Z * Ticker :=
  match k with
  | O => (t, ticker)
  | S k' =>
      let '(t', tk') := entered srv url deviceCode ticker t k' in
      let '(now, tk'') := recv tk' t' in
      (now + latency (srv url deviceCode k'), tk'')
  end.

(** The instant of the [k]-th tick, at which the [k]-th [checkToken] starts
    when the deadline has not passed. *)
Definition tickAt (srv : endpoint) (url deviceCode : string)
    (ticker : Ticker) (t : Z) (k : nat) : Z :=
  let '(t', tk') := entered srv url deviceCode ticker t k in
  fst (recv tk' t').

(** [type DeviceCodeResponse struct]; its [ExpiresIn] is named
    [DeviceExpiresIn] here, apart from that of [TokenResponse]. *)
Record DeviceCodeResponse := {
  DeviceCode : string;
  UserCode : string;
  VerificationURI : string;
  DeviceExpiresIn : Z;
  Interval : Z
}.

(** What the one round trip of [requestDeviceCode] meets: a failed request,
    a status other than 200 with its body, a body that does not decode, or
    a decoded body. *)
Inductive deviceReply :=
| DeviceRequestFailed (err : error)
| DeviceStatus (code : Z) (body : string)
| DeviceMalformed (err : error)
| DeviceBody (deviceResp : DeviceCodeResponse).

Record deviceExchange := { deviceLatency : Z; deviceAnswer : deviceReply }.

(** [func requestDeviceCode(apiURL string)], applied to the reply. *)
Definition requestDeviceCode (r : deviceReply)
    : config.result DeviceCodeResponse :=
  match r with
  | DeviceRequestFailed err => config.Err err
  | DeviceStatus code body =>
      config.Err ("API returned status " +:+ pretty code +:+ ": " +:+ body)
  | DeviceMalformed err => config.Err err
  | DeviceBody deviceResp => config.Ok deviceResp
  end.

(** Step 4 of [AuthenticateDeviceFlow]: the three assignments to [cfg] at
    instant [now]. [rfc3339] is [Time.Format(time.RFC3339)]. *)
Definition storeToken (rfc3339 : Z -> string) (now : Z)
    (cfg : config.Config) (token : TokenResponse) : config.Config :=
  {| config.APIURL := config.APIURL cfg;
     config.AccessToken := AccessToken token;
     config.RefreshToken := RefreshToken token;
     config.TokenExpiry :=
       rfc3339 (now + wrap64 (ExpiresIn token * Second)) |}.

(** How a call of [AuthenticateDeviceFlow] ends. *)
Inductive flow :=
| FlowPanicked (msg : string)
| FlowRunning
| FlowReturned (err : option error) (fs : config.FS).

(** [func AuthenticateDeviceFlow(cfg *config.Config) error], entered at
    instant [start]; [dev] is the device-code endpoint and [setup] the time
    that [pollForToken] takes to create its ticker. *)
Definition AuthenticateDeviceFlow (fuel : nat) (rfc3339 : Z -> string)
    (dev : string -> deviceExchange) (srv : endpoint) (start setup : Z)
    (cfg : config.Config) (fs : config.FS) : flow :=
  let x := dev (config.APIURL cfg +:+ "/auth/github/device/code") in
  match requestDeviceCode (deviceAnswer x) with
  | config.Err err =>
      FlowReturned (Some (Errorf "failed to request device code: " err)) fs
  | config.Ok deviceResp =>
      match pollForToken fuel srv (start + deviceLatency x) setup
              (config.APIURL cfg) (DeviceCode deviceResp)
              (Interval deviceResp) (DeviceExpiresIn deviceResp) with
      | Panicked msg => FlowPanicked msg
      | Running => FlowRunning
      | Returned _ _ _ (Some err) =>
          FlowReturned (Some (Errorf "failed to get token: " err)) fs
      | Returned _ _ None None =>
          FlowPanicked "nil pointer dereference"
      | Returned _ now (Some token) None =>
          match config.Save (storeToken rfc3339 now cfg token) fs with
          | (Some err, fs') =>
              FlowReturned (Some (Errorf "failed to save config: " err)) fs'
          | (None, fs') => FlowReturned None fs'
          end
      end
  end.

(** The ticker that [pollForToken] creates at instant [created] for a
    positive interval; [created] is later than the instant at which the
    clock was read for the deadline. *)
Definition pollTicker (created interval : Z) : Ticker :=
  {| period := wrap64 (interval * Second);
     next := created + wrap64 (interval * Second) |}.

(** A log of calls each made in time, the [k]-th no earlier than [k + 1]
    periods after the instant [created] at which the ticker was made. *)
Definition paced (created timeout p : Z) (log : list Z) : Prop :=
  forall k c, log !! k = Some c ->
    created + (Z.of_nat k + 1) * p <= c <= timeout.

(** The instant of the [k]-th tick of that ticker in a run that is still
    polling then. *)
Definition pollTick (srv : endpoint) (created : Z)
    (apiURL deviceCode : string) (interval : Z) (k : nat) : Z :=
  tickAt srv (tokenURL apiURL) deviceCode (pollTicker created interval)
    created k.

End client.


(** ** Package cmd: the auth commands *)

Module cmd.

Import config.

(** The default of the persistent flag [--api-url] (root.go):
    [StringVar(&apiURL, "api-url", "https://api.armyknifelabs.com/api/v1",
    ...)].  It is not the [api_url] of [defaultConfig]. *)
Definition defaultAPIURL : string := "https://api.armyknifelabs.com/api/v1".

(** The global [apiURL] as cobra sets it for a command line: the value
    given to [--api-url], which may be empty, or the default when the flag
    is left out. *)
Definition flagAPIURL (given : option string) : string :=
  match given with
  | Some url => url
  | None => defaultAPIURL
  end.

(** What a run of [auth login] is given: the global [apiURL] (see
    [flagAPIURL]), the [--github-pat] and [--api-key] flags, the
    environment variable [GITHUB_PAT], and the token that
    [fmt.Scanln(&apiKey)] stores when the key is asked for (empty when the
    line is empty). *)
Record invocation := {
  apiURL : string;
  flagGithubPAT : string;
  envGithubPAT : string;
  flagAPIKey : string;
  scanned : string
}.

(** The anonymous [result] struct of [exchangePATForAPIKey]. *)
Record exchangeResult := {
  Success : bool;
  APIKey : string;
  KeyID : string;
  KeyName : string;
  ExpiresAt : string;
  UserID : Z;
  Username : string;
  ErrorCode : string;
  ErrorMessage : string
}.

(** What the POST to the exchange endpoint meets: [http.Post] fails, the
    body does not decode, or it decodes. *)
Inductive patReply :=
| PostFailed (err : error)
| Undecodable (err : error)
| Decoded (result : exchangeResult).

(** An HTTP request as sent: the URL and the [github_pat] member of its
    body. *)
Record request := { reqURL : string; reqGithubPAT : string }.

(** The exchange endpoint. *)
Definition patEndpoint := request -> patReply.

(** How a command ends: its error, the file system afterwards and the HTTP
    requests it sent. *)
Record ended := {
  failure : option error;
  disk : FS;
  sent : list request
}.

(** [func isValidAPIKey(key string) bool]. *)
Definition isValidAPIKey (key : string) : bool :=
  (3 <? String.length key)%nat && (substring 0 3 key == "ak_").

(** [func exchangePATForAPIKey(cfg *config.Config, githubPAT string) error]. *)
Definition exchangePATForAPIKey (http : patEndpoint) (cfg : Config)
    (githubPAT : string) (fs : FS) : ended :=
  let url := APIURL cfg +:+ "/auth/pat/exchange" in
  let req := {| reqURL := url; reqGithubPAT := githubPAT |} in
  match http req with
  | PostFailed err =>
      {| failure := Some (Errorf "failed to contact API: " err);
         disk := fs; sent := [req] |}
  | Undecodable err =>
      {| failure := Some (Errorf "failed to parse response: " err);
         disk := fs; sent := [req] |}
  | Decoded result =>
      if negb (Success result) then
        {| failure := Some ("PAT exchange failed: " +:+ ErrorCode result
                            +:+ " - " +:+ ErrorMessage result);
           disk := fs; sent := [req] |}
      else
        let cfg' := {| APIURL := APIURL cfg;
                       AccessToken := APIKey result;
                       RefreshToken := RefreshToken cfg;
                       TokenExpiry := ExpiresAt result |} in
        match Save cfg' fs with
        | (Some err, fs') =>
            {| failure := Some (Errorf "failed to save config: " err);
               disk := fs'; sent := [req] |}
        | (None, fs') => {| failure := None; disk := fs'; sent := [req] |}
        end
  end.

(** [loginCmd.RunE]. *)
Definition loginCmd (inv : invocation) (http : patEndpoint) (fs : FS)
    : ended :=
  match Load fs with
  | Err err =>
      {| failure := Some (Errorf "failed to load config: " err);
         disk := fs; sent := [] |}
  | Ok cfg =>
      let cfg :=
        if negb (apiURL inv == "") then
          {| APIURL := apiURL inv; AccessToken := AccessToken cfg;
             RefreshToken := RefreshToken cfg;
             TokenExpiry := TokenExpiry cfg |}
        else cfg in
      let githubPAT := flagGithubPAT inv in
      let githubPAT :=
        if githubPAT == "" then envGithubPAT inv else githubPAT in
      if negb (githubPAT == "") then
        exchangePATForAPIKey http cfg githubPAT fs
      else
        let apiKey := flagAPIKey inv in
        let apiKey := if apiKey == "" then scanned inv else apiKey in
        if apiKey == "" then
          {| failure := Some "API key is required"; disk := fs; sent := [] |}
        else if (String.length apiKey <? 10)%nat || negb (isValidAPIKey apiKey) then
          {| failure := Some "invalid API key format";
             disk := fs; sent := [] |}
        else
          let cfg' := {| APIURL := APIURL cfg; AccessToken := apiKey;
                         RefreshToken := RefreshToken cfg;
                         TokenExpiry := TokenExpiry cfg |} in
          match Save cfg' fs with
          | (Some err, fs') =>
              {| failure := Some (Errorf "failed to save config: " err);
                 disk := fs'; sent := [] |}
          | (None, fs') => {| failure := None; disk := fs'; sent := [] |}
          end
  end.

(** [logoutCmd.RunE]: the error and the file system afterwards. *)
Definition logoutCmd (fs : FS) : option error * FS :=
  match Load fs with
  | Err err => (Some (Errorf "failed to load config: " err), fs)
  | Ok cfg =>
      let cfg' := {| APIURL := APIURL cfg; AccessToken := "";
                     RefreshToken := ""; TokenExpiry := "" |} in
      match Save cfg' fs with
      | (Some err, fs') => (Some (Errorf "failed to save config: " err), fs')
      | (None, fs') => (None, fs')
      end
  end.

(** *** Expiry formatting *)

(** [float64(z)] for an integer of magnitude below [2^63]. *)
Definition float64 (z : Z) : float :=
  if z <? 0 then PrimFloat.opp (PrimFloat.of_uint63 (Uint63.of_Z (- z)))
  else PrimFloat.of_uint63 (Uint63.of_Z z).

(** [int(f)] for a finite [f] of magnitude below [2^63]: truncation toward
    zero. *)
Definition int (f : float) : Z :=
  match Prim2SF f with
  | S754_finite s m e =>
      let a := if 0 <=? e then Z.pos m * 2 ^ e else Z.pos m / 2 ^ (- e) in
      if s then - a else a
  | _ => 0
  end.

(** [func (d Duration) Hours() float64] of package [time]. *)
Definition Hours (d : Z) : float :=
  let hour := Z.quot d Hour in
  let nsec := Z.rem d Hour in
  PrimFloat.add (float64 hour)
    (PrimFloat.div (float64 nsec) (float64 (60 * 60 * 1000000000))).

(** [func (t Time) Sub(u Time) Duration]: the difference of the instants,
    saturated to the range of [Duration]. *)
Definition Sub (t u : Z) : Z :=
  Z.max (- 2 ^ 63) (Z.min (2 ^ 63 - 1) (t - u)).

Section FormatExpiry.

(** Package [time], taken as given: the values of [time.Time], their
    instant in nanoseconds, [time.Parse(time.RFC3339, _)] ([None] when it
    returns an error) and [Time.Format("January 2, 2006 at 3:04 PM MST")]. *)
Variable Time : Type.
Variable instant : Time -> Z.
Variable Parse : string -> option Time.
Variable Format : Time -> string.

(** The day count computed by [formatExpiryDate] at instant [now]. *)
Definition daysUntil (now : Z) (expiryTime : Time) : Z :=
  let duration := Sub (instant expiryTime) now in
  int (PrimFloat.div (Hours duration) (float64 24)).

(** [func formatExpiryDate(isoDate string) string], with [time.Now()]
    returning [now]. *)
Definition formatExpiryDate (now : Z) (isoDate : string) : string :=
  if isoDate == "" then "Unknown"
  else
    match Parse isoDate with
    | None => isoDate
    | Some expiryTime =>
        let formatted := Format expiryTime in
        let days := daysUntil now expiryTime in
        if days <? 0 then formatted +:+ " (EXPIRED)"
        else if days =? 0 then formatted +:+ " (expires today)"
        else if days =? 1 then formatted +:+ " (1 day from now)"
        else formatted +:+ " (" +:+ pretty days +:+ " days from now)"
    end.

End FormatExpiry.

End cmd.

(** ** Sample runs *)

Module sample.

Import client.

Definition api : string := "https://test.armyknifelabs.com/api/v1".

(** A decoded body with the given [access_token] and [error]. *)
Definition body (accessToken err : string) : reply :=
  Body {| AccessToken := accessToken; RefreshToken := ""; TokenType := "";
          ExpiresIn := 0; Error := err |}.

Definition tokA : TokenResponse :=
  {| AccessToken := "tok-A"; RefreshToken := "ref-A"; TokenType := "bearer";
     ExpiresIn := 3600; Error := "" |}.

(** The decoded form of the body [{}]. *)
Definition blank : TokenResponse :=
  {| AccessToken := ""; RefreshToken := ""; TokenType := "";
     ExpiresIn := 0; Error := "" |}.

(** The time a run takes to create its ticker after it has read the clock
    for its deadline: 50 microseconds. *)
Definition setup : Z := 50000.

(** Scenario 1 of the spec: pending twice, then the token; the server
    answers at once. *)
Definition pendingTwice : endpoint := fun _ _ k =>
  {| latency := 0;
     answer := if (k <? 2)%nat then body "" "authorization_pending"
               else Body tokA |}.

(** Scenario 2: the user refuses. *)
Definition denied : endpoint := fun _ _ _ =>
  {| latency := 0; answer := body "" "access_denied" |}.

(** Scenario 3: never authorised; every answer takes one second. *)
Definition neverAuthorised : endpoint := fun _ _ _ =>
  {| latency := 1 * Second; answer := body "" "authorization_pending" |}.

(** A server that answers [{}] to every poll. *)
Definition blankBody : endpoint := fun _ _ _ =>
  {| latency := 0; answer := Body blank |}.

(** Never authorised, and the [k]-th answer alone takes [d] nanoseconds
    (less than the 10 s the HTTP client allows). *)
Definition stall (k : nat) (d : Z) : endpoint := fun _ _ j =>
  {| latency := if (j =? k)%nat then d else 0;
     answer := body "" "slow_down" |}.

(** [Time.Format(time.RFC3339)] is not needed to tell these runs apart. *)
Definition stamp : Z -> string := fun _ => "2026-01-01T00:00:00Z".

Definition tokB : TokenResponse :=
  {| AccessToken := "tok-A"; RefreshToken := "ref-A"; TokenType := "mac";
     ExpiresIn := 3600; Error := "" |}.

(** A machine on which every file operation succeeds, without and with a
    config file. *)
Definition freshDisk : config.FS :=
  {| config.homeDir := None; config.mkdirAll := None;
     config.configFile := config.Absent; config.writeFile := None |}.

Definition loggedIn : config.Config :=
  {| config.APIURL := api; config.AccessToken := "ak_first_key_0001";
     config.RefreshToken := "refresh-of-first-login";
     config.TokenExpiry := "2020-01-01T00:00:00Z" |}.

Definition usedDisk : config.FS :=
  config.withFile freshDisk
    (config.Present (config.Object (config.Marshal loggedIn))).

(** An exchange endpoint that accepts whatever it is sent. *)
Definition lenient : cmd.patEndpoint := fun _ =>
  cmd.Decoded {| cmd.Success := true; cmd.APIKey := "ak_second_key_0002";
                 cmd.KeyID := "7c1d"; cmd.KeyName := "ci";
                 cmd.ExpiresAt := "2027-01-01T00:00:00Z";
                 cmd.UserID := 1; cmd.Username := "octocat";
                 cmd.ErrorCode := ""; cmd.ErrorMessage := "" |}.

(** [auth login --api-key key], with [GITHUB_PAT] unset; [--api-url] is
    left out, so [apiURL] holds the flag's default. *)
Definition withKey (key : string) : cmd.invocation :=
  {| cmd.apiURL := cmd.flagAPIURL None; cmd.flagGithubPAT := "";
     cmd.envGithubPAT := ""; cmd.flagAPIKey := key; cmd.scanned := "" |}.

(** [auth login --github-pat pat], likewise without [--api-url]. *)
Definition withPAT (pat : string) : cmd.invocation :=
  {| cmd.apiURL := cmd.flagAPIURL None; cmd.flagGithubPAT := pat;
     cmd.envGithubPAT := ""; cmd.flagAPIKey := ""; cmd.scanned := "" |}.

End sample.

(** ** Package client: the API client (client.go) *)

Module api.

Import config.

(** [type APIError struct], [type APIMetadata struct],
    [type APIResponse struct]. [Data] is the raw JSON of the [data] member. *)
Record APIError := { Message : string; Code : string }.

Record APIMetadata := {
  Timestamp : string;
  RequestID : string;
  Source : string
}.

Record APIResponse := {
  Success : bool;
  Data : string;
  Error : option APIError;
  Metadata : option APIMetadata
}.

(** An [http.Request] as the client builds it: method, URL, the bytes of
    the body if there is one, and the headers it sets. *)
Record Request := {
  method : string;
  url : string;
  payload : option string;
  header : gmap string string
}.

(** What becomes of a request: [http.NewRequest] rejects it,
    [httpClient.Do] fails, [io.ReadAll] fails, or a response arrives with
    its status code, its body and what [json.Unmarshal] makes of the body
    as an [APIResponse]. *)
Inductive roundTrip :=
| NewRequestFailed (err : error)
| DoFailed (err : error)
| ReadFailed (err : error)
| Received (status : Z) (respBody : string) (apiResp : result APIResponse).

Definition network := Request -> roundTrip.

(** The result of a call together with the requests handed to
    [httpClient.Do]. *)
Record called (A : Type) := { returned : result A; sent : list Request }.
Arguments returned {A} c.
Arguments sent {A} c.

(** [type Client struct]: the configuration; the [http.Client] inside has a
    timeout of 30 s and no other state. *)
Definition Client := Config.

(** [func NewClient(cfg *config.Config) *Client]. *)
Definition NewClient (cfg : Config) : Client := cfg.

(** The headers that [request] and [GetRaw] set on a request. *)
Definition headers (c : Client) : gmap string string :=
  let h := <["Content-Type" := "application/json"]> ∅ in
  if negb (AccessToken c == "") then
    <["Authorization" := "Bearer " +:+ AccessToken c]> h
  else h.

(** The request that [request] and [GetRaw] hand to [httpClient.Do]:
    [http.NewRequest(method, url, bodyReader)] with the two headers set. *)
Definition newRequest (c : Client) (method url : string)
    (payload : option string) : Request :=
  {| method := method; url := url; payload := payload;
     header := headers c |}.

(** [func (c *Client) request(method, path string, body interface{})].
    [body] is [None] for a nil body, otherwise what [json.Marshal] makes of
    it. *)
Definition request (net : network) (c : Client) (method path : string)
    (body : option (result string)) : called APIResponse :=
  let url := APIURL c +:+ path in
  match body with
  | Some (Err err) =>
      {| returned := Err (Errorf "failed to marshal request body: " err);
         sent := [] |}
  | _ =>
      let req := newRequest c method url
                   match body with
                   | Some (Ok jsonBody) => Some jsonBody
                   | _ => None
                   end in
      match net req with
      | NewRequestFailed err =>
          {| returned := Err (Errorf "failed to create request: " err);
             sent := [] |}
      | DoFailed err =>
          {| returned := Err (Errorf "request failed: " err);
             sent := [req] |}
      | ReadFailed err =>
          {| returned := Err (Errorf "failed to read response body: " err);
             sent := [req] |}
      | Received status respBody apiResp =>
          if (status <? 200) || (300 <=? status) then
            {| returned := Err ("API returned status " +:+ pretty status
                                +:+ ": " +:+ respBody);
               sent := [req] |}
          else
            match apiResp with
            | Err err =>
                {| returned := Err (Errorf "failed to parse response: " err);
                   sent := [req] |}
            | Ok apiResp =>
                match Error apiResp with
                | Some apiError =>
                    if negb (Success apiResp) then
                      {| returned := Err (Errorf "API error: "
                                            (Message apiError));
                         sent := [req] |}
                    else {| returned := Ok apiResp; sent := [req] |}
                | None => {| returned := Ok apiResp; sent := [req] |}
                end
            end
      end
  end.

(** [Get], [Post], [Delete], [Patch]. *)
Definition Get (net : network) (c : Client) (path : string)
    : called APIResponse :=
  request net c "GET" path None.

Definition Post (net : network) (c : Client) (path : string)
    (body : option (result string)) : called APIResponse :=
  request net c "POST" path body.

Definition Delete (net : network) (c : Client) (path : string)
    : called APIResponse :=
  request net c "DELETE" path None.

Definition Patch (net : network) (c : Client) (path : string)
    (body : option (result string)) : called APIResponse :=
  request net c "PATCH" path body.

(** [func (c *Client) GetBaseURL() string]. *)
Definition GetBaseURL (c : Client) : string :=
  let baseURL := APIURL c in
  if (7 <? String.length baseURL)%nat
     && (substring (String.length baseURL - 7) 7 baseURL == "/api/v1")
  then substring 0 (String.length baseURL - 7) baseURL
  else baseURL.

(** [func (c *Client) GetRaw(url string) ([]byte, error)]. *)
Definition GetRaw (net : network) (c : Client) (url : string)
    : called string :=
  let req := newRequest c "GET" url None in
  match net req with
  | NewRequestFailed err =>
      {| returned := Err (Errorf "failed to create request: " err);
         sent := [] |}
  | DoFailed err =>
      {| returned := Err (Errorf "request failed: " err); sent := [req] |}
  | ReadFailed err =>
      {| returned := Err (Errorf "failed to read response body: " err);
         sent := [req] |}
  | Received status respBody _ =>
      if (status <? 200) || (300 <=? status) then
        {| returned := Err ("API returned status " +:+ pretty status
                            +:+ ": " +:+ respBody);
           sent := [req] |}
      else {| returned := Ok respBody; sent := [req] |}
  end.

End api.

(** ** Package cmd, continued: commands that use the API client *)

Module cli.

Import config.

(** How such a command ends: its error and the requests it sent.  None of
    them writes the configuration. *)
Record ran := { failure : option error; sent : list api.Request }.

(** [cacheStatsCmd.RunE]. [apiURL] is the global variable that cobra sets
    from [--api-url] (see [cmd.flagAPIURL]).  The
    final [output.JSON(resp.Data)] marshals raw JSON that the decoder
    accepted and cannot fail. *)
Definition cacheStatsCmd (net : api.network) (apiURL : string) (fs : FS)
    : ran :=
  match Load fs with
  | Err err =>
      {| failure := Some (Errorf "failed to load config: " err); sent := [] |}
  | Ok cfg =>
      if negb (IsAuthenticated cfg) then
        {| failure :=
             Some "not authenticated. Run 'armyknife auth login' first";
           sent := [] |}
      else
        let cfg :=
          if negb (apiURL == "") then
            {| APIURL := apiURL; AccessToken := AccessToken cfg;
               RefreshToken := RefreshToken cfg;
               TokenExpiry := TokenExpiry cfg |}
          else cfg in
        let c := api.NewClient cfg in
        let call := api.Get net c "/cache/stats" in
        match api.returned call with
        | Err err =>
            {| failure := Some (Errorf "failed to fetch cache stats: " err);
               sent := api.sent call |}
        | Ok resp => {| failure := None; sent := api.sent call |}
        end
  end.

(** [cacheClearCmd.RunE]. *)
Definition cacheClearCmd (net : api.network) (apiURL : string) (fs : FS)
    : ran :=
  match Load fs with
  | Err err =>
      {| failure := Some (Errorf "failed to load config: " err); sent := [] |}
  | Ok cfg =>
      if negb (IsAuthenticated cfg) then
        {| failure :=
             Some "not authenticated. Run 'armyknife auth login' first";
           sent := [] |}
      else
        let cfg :=
          if negb (apiURL == "") then
            {| APIURL := apiURL; AccessToken := AccessToken cfg;
               RefreshToken := RefreshToken cfg;
               TokenExpiry := TokenExpiry cfg |}
          else cfg in
        let c := api.NewClient cfg in
        let call := api.Post net c "/cache/clear" None in
        match api.returned call with
        | Err err =>
            {| failure := Some (Errorf "failed to clear cache: " err);
               sent := api.sent call |}
        | Ok resp => {| failure := None; sent := api.sent call |}
        end
  end.

(** [healthCmd.RunE]. [unmarshalHealth] is
    [json.Unmarshal(resp.Data, &health)]: its error, if any.  What the
    command prints is not modelled. *)
Definition healthCmd (net : api.network)
    (unmarshalHealth : string -> option error) (apiURL : string) (fs : FS)
    : ran :=
  match Load fs with
  | Err err =>
      {| failure := Some (Errorf "failed to load config: " err); sent := [] |}
  | Ok cfg =>
      let cfg :=
        if negb (apiURL == "") then
          {| APIURL := apiURL; AccessToken := AccessToken cfg;
             RefreshToken := RefreshToken cfg;
             TokenExpiry := TokenExpiry cfg |}
        else cfg in
      let c := api.NewClient cfg in
      let health := api.Get net c "/health" in
      match api.returned health with
      | Err err => {| failure := Some err; sent := api.sent health |}
      | Ok resp =>
          match unmarshalHealth (api.Data resp) with
          | Some err =>
              {| failure :=
                   Some (Errorf "failed to parse health response: " err);
                 sent := api.sent health |}
          | None =>
              let ai := api.Get net c "/ai/health" in
              let rate := api.Get net c "/github/rate-limit" in
              {| failure := None;
                 sent := (api.sent health ++ api.sent ai
                          ++ api.sent rate)%list |}
          end
      end
  end.

(** A call of one of the printing functions of package [output]. *)
Inductive printed :=
| Header (message : string)
| Success (message : string)
| Warning (message : string)
| Info (message : string)
| Table (rows : gmap string string).

Section Status.

(** Package [time], as for [cmd.formatExpiryDate]. *)
Variable Time : Type.
Variable instant : Time -> Z.
Variable Parse : string -> option Time.
Variable Format : Time -> string.

(** [statusCmd.RunE], run at instant [now]: its error and what it prints. *)
Definition statusCmd (now : Z) (fs : FS) : option error * list printed :=
  match Load fs with
  | Err err => (Some (Errorf "failed to load config: " err), [])
  | Ok cfg =>
      if IsAuthenticated cfg then
        (None,
         [ Header "Authentication Status";
           Success "✅ Authenticated";
           Table (<["API URL" := APIURL cfg]>
                    (<["Token Expiry" :=
                         cmd.formatExpiryDate Time instant Parse Format now
                           (TokenExpiry cfg)]> ∅)) ])
      else
        (None,
         [ Header "Authentication Status";
           Warning "❌ Not authenticated";
           Info (String "010" "Run 'armyknife auth login' to authenticate") ])
  end.

End Status.

(** Go's [s[lo:hi]] on a string: [None] when it panics. *)
Definition slice (s : string) (lo hi : Z) : option string :=
  if (0 <=? lo) && (lo <=? hi) && (hi <=? Z.of_nat (String.length s)) then
    Some (substring (Z.to_nat lo) (Z.to_nat (hi - lo)) s)
  else None.

(** [func truncate(s string, maxLen int) string] of the git commands;
    [None] when it panics. *)
Definition truncate (s : string) (maxLen : Z) : option string :=
  if Z.of_nat (String.length s) <=? maxLen then Some s
  else
    match slice s 0 (maxLen - 3) with
    | Some head => Some (head +:+ "...")
    | None => None
    end.

(** [func truncateText(text string, maxLen int) string] of the voice
    commands; [None] when it panics. *)
Definition truncateText (text : string) (maxLen : Z) : option string :=
  if Z.of_nat (String.length text) <=? maxLen then Some text
  else
    match slice text 0 maxLen with
    | Some head => Some (head +:+ "...")
    | None => None
    end.

(** *** Reading a .env file (the vault commands) *)

(** Byte classes of [lineRegex]: a letter or underscore, then letters,
    digits or underscores, then the equals sign, then anything to the end
    of the line. *)
Definition between (lo hi : nat) (c : ascii) : bool :=
  (lo <=? nat_of_ascii c)%nat && (nat_of_ascii c <=? hi)%nat.

Definition isLetter (c : ascii) : bool :=
  between 65 90 c || between 97 122 c || Ascii.eqb c "_".

Definition isWord (c : ascii) : bool := isLetter c || between 48 57 c.

(** The bytes with the given codes. *)
Definition bytes (codes : list Z) : string :=
  string_of_list_ascii (map (fun code => ascii_of_nat (Z.to_nat code)) codes).

(** [unicode.IsSpace]: tab to carriage return and the blank, and, in their
    UTF-8 encoding, U+0085, U+00A0, U+1680, U+2000 to U+200A, U+2028,
    U+2029, U+202F, U+205F and U+3000. *)
Definition asciiSpace (c : ascii) : bool :=
  between 9 13 c || Ascii.eqb c " ".

Definition wideSpaces : list string :=
  ([ bytes [194; 133]; bytes [194; 160]; bytes [225; 154; 128] ]
   ++ map (fun b => bytes [226; 128; Z.of_nat b]) (seq 128 11)
   ++ [ bytes [226; 128; 168]; bytes [226; 128; 169]; bytes [226; 128; 175];
        bytes [226; 129; 159]; bytes [227; 128; 128] ])%list.

(** [s] without [p] in front of it. *)
Fixpoint dropPrefix (p s : string) : option string :=
  match p, s with
  | "", _ => Some s
  | String a p', String b s' =>
      if Ascii.eqb a b then dropPrefix p' s' else None
  | String _ _, "" => None
  end.

(** [s] without its first rune when that is a space; [wide] lists the
    encodings of the spaces of more than one byte. *)
Definition dropSpace (wide : list string) (s : string) : option string :=
  match s with
  | "" => None
  | String c rest =>
      if asciiSpace c then Some rest
      else
        fold_right
          (fun p found =>
             match dropPrefix p s with
             | Some rest' => Some rest'
             | None => found
             end)
          None wide
  end.

Fixpoint trimFuel (n : nat) (wide : list string) (s : string) : string :=
  match n with
  | O => s
  | S n' =>
      match dropSpace wide s with
      | Some rest => trimFuel n' wide rest
      | None => s
      end
  end.

(** [strings.TrimSpace]: the spaces in front are removed, then, read
    backwards, the spaces at the end. *)
Definition TrimSpace (s : string) : string :=
  let front := trimFuel (String.length s) wideSpaces s in
  String.rev
    (trimFuel (String.length front) (map String.rev wideSpaces)
       (String.rev front)).

(** The longest run of word bytes in front of [s], and the rest. *)
Fixpoint spanWord (s : string) : string * string :=
  match s with
  | "" => ("", "")
  | String c rest =>
      if isWord c then
        let '(word, tail) := spanWord rest in (String c word, tail)
      else ("", s)
  end.

Fixpoint hasNewline (s : string) : bool :=
  match s with
  | "" => false
  | String c rest => Ascii.eqb c "010" || hasNewline rest
  end.

(** [lineRegex.FindStringSubmatch(line)]: the two submatches, [None] when
    the line does not match.  [.] matches every byte but the newline. *)
Definition FindStringSubmatch (line : string) : option (string * string) :=
  match line with
  | "" => None
  | String c rest =>
      if isLetter c then
        let '(word, tail) := spanWord rest in
        match tail with
        | String "=" value =>
            if hasNewline value then None else Some (String c word, value)
        | _ => None
        end
      else None
  end.

(** The texts that the first submatch can be: identifiers. *)
Fixpoint allWord (s : string) : bool :=
  match s with
  | "" => true
  | String c rest => isWord c && allWord rest
  end.

Definition isIdentifier (s : string) : bool :=
  match s with
  | "" => false
  | String c rest => isLetter c && allWord rest
  end.

(** [strings.HasSuffix]; [strings.HasPrefix] is [String.prefix]. *)
Definition HasSuffix (s suffix : string) : bool :=
  (String.length suffix <=? String.length s)%nat
  && (substring (String.length s - String.length suffix)
        (String.length suffix) s == suffix).

(** The double quote and the single quote. *)
Definition dquote : string := String "034" "".
Definition squote : string := "'".

(** The loop of [parseEnvFile] over the lines that the scanner yields;
    [None] when it panics. *)
Fixpoint scanLines (lines : list string) (secrets : gmap string string)
    : option (gmap string string) :=
  match lines with
  | [] => Some secrets
  | text :: rest =>
      let line := TrimSpace text in
      if (line == "") || String.prefix "#" line then scanLines rest secrets
      else
        match FindStringSubmatch line with
        | None => scanLines rest secrets
        | Some (key, value) =>
            if (String.prefix dquote value && HasSuffix value dquote)
               || (String.prefix squote value && HasSuffix value squote)
            then
              match slice value 1 (Z.of_nat (String.length value) - 1) with
              | Some value' => scanLines rest (<[key := value']> secrets)
              | None => None
              end
            else scanLines rest (<[key := value]> secrets)
        end
  end.

(** How a call of [parseEnvFile] ends. *)
Inductive parsed :=
| Panicked
| Returned (secrets : result (gmap string string)).

(** [func parseEnvFile(filename string) (map[string]string, error)].
    [opened] is the error of [os.Open], [lines] what [scanner.Text()]
    yields line after line, [scanErr] the final [scanner.Err()]. *)
Definition parseEnvFile (opened : option error) (lines : list string)
    (scanErr : option error) : parsed :=
  match opened with
  | Some err => Returned (Err err)
  | None =>
      match scanLines lines ∅ with
      | None => Panicked
      | Some secrets =>
          match scanErr with
          | Some err => Returned (Err err)
          | None => Returned (Ok secrets)
          end
      end
  end.

End cli.

(** ** More sample data *)

Module fixture.

(** A client that holds a token, and one that holds none. *)
Definition keyed : api.Client :=
  {| config.APIURL := sample.api; config.AccessToken := "ak_first_key_0001";
     config.RefreshToken := ""; config.TokenExpiry := "" |}.

Definition anonymous : api.Client := config.defaultConfig.

Definition envelope (ok : bool) (data : string) : api.APIResponse :=
  {| api.Success := ok; api.Data := data; api.Error := None;
     api.Metadata := None |}.

(** A server that answers every request with status 200 and a successful
    envelope. *)
Definition healthy : api.network := fun _ =>
  api.Received 200 "{}" (config.Ok (envelope true "{}")).

(** A server that answers 503 to everything. *)
Definition down : api.network := fun _ =>
  api.Received 503 "unavailable" (config.Err "invalid character 'u'").

(** A server that is up but whose AI and rate-limit routes fail. *)
Definition degraded : api.network := fun req =>
  if api.url req == sample.api +:+ "/health" then
    api.Received 200 "{}" (config.Ok (envelope true "{}"))
  else api.DoFailed "connection refused".

(** A device-code endpoint answering with an interval of 5 s and a lifetime
    of 20 s, and one whose answer has no [interval] member. *)
Definition deviceCodes : string -> client.deviceExchange := fun _ =>
  {| client.deviceLatency := 0;
     client.deviceAnswer :=
       client.DeviceBody
         {| client.DeviceCode := "dc-1"; client.UserCode := "WDJB-MJHT";
            client.VerificationURI := "https://github.com/login/device";
            client.DeviceExpiresIn := 20; client.Interval := 5 |} |}.

Definition noInterval : string -> client.deviceExchange := fun _ =>
  {| client.deviceLatency := 0;
     client.deviceAnswer :=
       client.DeviceBody
         {| client.DeviceCode := "dc-1"; client.UserCode := "WDJB-MJHT";
            client.VerificationURI := "https://github.com/login/device";
            client.DeviceExpiresIn := 900; client.Interval := 0 |} |}.

(** A token endpoint that cannot be reached. *)
Definition unreachable : client.endpoint := fun _ _ _ =>
  {| client.latency := 0;
     client.answer := client.RequestFailed "dial tcp: connection refused" |}.

(** An exchange endpoint that answers [{"success": true}] and nothing
    more. *)
Definition hollow : cmd.patEndpoint := fun _ =>
  cmd.Decoded {| cmd.Success := true; cmd.APIKey := ""; cmd.KeyID := "";
                 cmd.KeyName := ""; cmd.ExpiresAt := ""; cmd.UserID := 0;
                 cmd.Username := ""; cmd.ErrorCode := "";
                 cmd.ErrorMessage := "" |}.

(** A machine whose config file also holds a member that the program does
    not know. *)
Definition themedDisk : config.FS :=
  config.withFile sample.freshDisk
    (config.Present
       (config.Object (<["theme" := "dark"]> (config.Marshal sample.loggedIn)))).

(** The lines of a small .env file. *)
Definition dotenv : list string :=
  [ "# database"; ""; "DB_URL=postgres://db"; "export PATH=/bin";
    "  TOKEN='a b'  " ].

(** The request that [cache stats], without [--api-url], sends for the
    stored login of [sample.usedDisk]: it goes to the default of the flag,
    not to the stored address. *)
Definition statsRequest : api.Request :=
  api.newRequest
    {| config.APIURL := cmd.defaultAPIURL;
       config.AccessToken := config.AccessToken sample.loggedIn;
       config.RefreshToken := config.RefreshToken sample.loggedIn;
       config.TokenExpiry := config.TokenExpiry sample.loggedIn |}
    "GET" (cmd.defaultAPIURL +:+ "/cache/stats") None.

(** [json.Unmarshal(resp.Data, &health)] accepting every answer. *)
Definition anyHealth : string -> option error := fun _ => None.

(** Package [time] reduced to what the samples need: instants for times, a
    parser that knows one timestamp, and a formatter that prints the
    instant. *)
Definition parseStamp : string -> option Z := fun isoDate =>
  if isoDate == "2020-01-01T00:00:00Z" then Some 1577836800000000000
  else None.

Definition printInstant : Z -> string := fun t => pretty t.

End fixture.

(** ** Checking by enumeration *)

Module enum.

(** [f] holds of the [n] integers from [k] on. *)
Fixpoint allFrom (n : nat) (f : Z -> bool) (k : Z) : bool :=
  match n with
  | O => true
  | S n' => f k && allFrom n' f (k + 1)
  end.

(** The day count that [formatExpiryDate] computes for a distance of
    exactly [k] days is [k]. *)
Definition wholeDay (k : Z) : bool :=
  cmd.int (PrimFloat.div (cmd.Hours (k * (24 * Hour))) (cmd.float64 24))
  =? k.

End enum.

(** * Properties *)

(** ** The poll loop *)

Import client.

Lemma eqb_true (a b : string) : (a == b) = true <-> a = b.
Proof. apply String.eqb_eq. Qed.

Lemma eqb_false (a b : string) : (a == b) = false <-> a <> b.
Proof. apply String.eqb_neq. Qed.

Lemma recv_spec tk t now tk' :
  0 < period tk ->
  recv tk t = (now, tk') ->
  now = Z.max t (next tk) /\ period tk' = period tk /\
  now < next tk' <= now + period tk /\ next tk + period tk <= next tk'.
Proof.
  intros Hp. unfold recv.
  destruct (Z.leb_spec (next tk) t) as [Hle | Hgt]; intros [= <- <-]; cbn.
  - pose proof (Z.div_mod (t - next tk) (period tk) ltac:(lia)) as Hdm.
    pose proof (Z.mod_pos_bound (t - next tk) (period tk) Hp) as Hm.
    pose proof (Z.div_pos (t - next tk) (period tk) ltac:(lia) Hp) as Hq.
    repeat split; nia.
  - repeat split; lia.
Qed.

Lemma checkToken_retriable r :
  retriable r = true ->
  exists err, checkToken r = (None, Some err) /\
    (err == "authorization_pending") || (err == "slow_down") = true.
Proof.
  destruct r as [e | e | tr]; cbn; try discriminate.
  intros Hr. rewrite Hr.
  destruct (Error tr == "") eqn:He.
  - apply eqb_true in He. rewrite He in Hr. discriminate.
  - cbn. eauto.
Qed.

Lemma checkToken_success r tok :
  checkToken r = (Some tok, None) <-> r = Body tok /\ Error tok = "".
Proof.
  split.
  - destruct r as [e | e | tr]; cbn; try discriminate.
    destruct (Error tr == "") eqn:He; cbn.
    + intros [= ->]. apply eqb_true in He. auto.
    + destruct (_ || _); discriminate.
  - intros [-> He]. cbn. rewrite He. reflexivity.
Qed.

Lemma token_error_not_retried (e : string) :
  (Errorf "token error: " e == "authorization_pending")
  || (Errorf "token error: " e == "slow_down") = false.
Proof. reflexivity. Qed.

Lemma checkToken_fatal tr :
  Error tr <> "" -> Error tr <> "authorization_pending" ->
  Error tr <> "slow_down" ->
  checkToken (Body tr) = (None, Some (Errorf "token error: " (Error tr))).
Proof.
  intros H1 H2 H3. cbn.
  apply eqb_false in H1, H2, H3. rewrite H1, H2, H3. reflexivity.
Qed.

Section Loop.

Variable srv : endpoint.
Variables url deviceCode : string.
Variable timeout : Z.
Variable ticker0 : Ticker.
Variable t0 : Z.
Hypothesis period_pos : 0 < period ticker0.

Local Abbreviation state := (entered srv url deviceCode ticker0 t0).
Local Abbreviation tick := (tickAt srv url deviceCode ticker0 t0).
Local Abbreviation ticks n := (map tick (seq 0 n)).

Lemma entered_period k : period (snd (state k)) = period ticker0.
Proof.
  induction k as [| k IH]; cbn; [reflexivity |].
  destruct (entered srv url deviceCode ticker0 t0 k) as [t tk]; cbn in *.
  destruct (recv tk t) as [now tk'] eqn:Hr; cbn.
  apply recv_spec in Hr; [| lia]. lia.
Qed.

Lemma state_S k :
  state (S k) =
  (tick k + latency (srv url deviceCode k),
   snd (recv (snd (state k)) (fst (state k)))).
Proof.
  unfold tickAt. cbn.
  destruct (entered srv url deviceCode ticker0 t0 k) as [t tk]; cbn.
  destruct (recv tk t) as [now tk']; reflexivity.
Qed.

Lemma tick_recv k :
  recv (snd (state k)) (fst (state k)) =
  (tick k, snd (recv (snd (state k)) (fst (state k)))).
Proof.
  unfold tickAt.
  destruct (entered srv url deviceCode ticker0 t0 k) as [t tk]; cbn.
  destruct (recv tk t); reflexivity.
Qed.

Lemma ticks_S n : ticks (S n) = (ticks n ++ [tick n])%list.
Proof. rewrite seq_S, map_app. reflexivity. Qed.

Lemma ticks_length n : length (ticks n) = n.
Proof. rewrite length_map, length_seq. reflexivity. Qed.

(** One iteration of the loop, entered in the state of the [m]-th receive. *)
Lemma pollLoop_step fuel m :
  pollLoop (S fuel) srv url deviceCode timeout
    (snd (state m)) (fst (state m)) (ticks m) =
  if timeout <? tick m then
    Returned (ticks m) (tick m) None (Some "authorization timeout exceeded")
  else
    match checkToken (answer (srv url deviceCode m)) with
    | (_, Some err) =>
        if (err == "authorization_pending") || (err == "slow_down")
        then pollLoop fuel srv url deviceCode timeout
               (snd (state (S m))) (fst (state (S m))) (ticks (S m))
        else Returned (ticks (S m)) (fst (state (S m))) None (Some err)
    | (Some token, None) =>
        Returned (ticks (S m)) (fst (state (S m))) (Some token) None
    | (None, None) =>
        pollLoop fuel srv url deviceCode timeout
          (snd (state (S m))) (fst (state (S m))) (ticks (S m))
    end.
Proof.
  cbn [pollLoop]. rewrite tick_recv, ticks_length, state_S, ticks_S.
  reflexivity.
Qed.

(** While the replies are retriable and the ticks in time, the loop goes
    on. *)
Lemma pollLoop_skip j : forall m fuel,
  (forall k, (m <= k < m + j)%nat ->
     retriable (answer (srv url deviceCode k)) = true /\ tick k <= timeout) ->
  pollLoop (j + fuel) srv url deviceCode timeout
    (snd (state m)) (fst (state m)) (ticks m) =
  pollLoop fuel srv url deviceCode timeout
    (snd (state (m + j))) (fst (state (m + j))) (ticks (m + j)).
Proof.
  induction j as [| j IH]; intros m fuel Hk.
  - rewrite Nat.add_0_r. reflexivity.
  - change (S j + fuel)%nat with (S (j + fuel)).
    rewrite pollLoop_step.
    destruct (Hk m ltac:(lia)) as [Hr Ht].
    destruct (Z.ltb_spec timeout (tick m)); [lia |].
    destruct (checkToken_retriable _ Hr) as (err & -> & ->).
    rewrite IH by (intros k Hk'; apply Hk; lia).
    replace (S m + j)%nat with (m + S j)%nat by lia. reflexivity.
Qed.

Lemma tick_ge_entered k : fst (state k) <= tick k.
Proof.
  pose proof (tick_recv k) as Hr. apply recv_spec in Hr.
  - lia.
  - rewrite entered_period. exact period_pos.
Qed.

(** Time does not run backwards: later ticks are later. *)
Lemma tick_mono k :
  0 <= latency (srv url deviceCode k) -> tick k <= tick (S k).
Proof.
  intros Hl. pose proof (tick_ge_entered (S k)) as H.
  rewrite state_S in H. cbn in H. lia.
Qed.

Lemma tick_mono_le n : forall k,
  (forall j, (j < n)%nat -> 0 <= latency (srv url deviceCode j)) ->
  (k <= n)%nat -> tick k <= tick n.
Proof.
  induction n as [| n IH]; intros k Hl Hk.
  - replace k with 0%nat by lia. lia.
  - destruct (Nat.eq_dec k (S n)) as [-> | Hne]; [lia |].
    transitivity (tick n).
    + apply IH; [intros; apply Hl |]; lia.
    + apply tick_mono. apply Hl. lia.
Qed.

End Loop.

Lemma wrap64_small z : - 2 ^ 63 <= z < 2 ^ 63 -> wrap64 z = z.
Proof.
  intros H. unfold wrap64. rewrite Z.mod_small; lia.
Qed.

Lemma wrap64_seconds s :
  - maxSeconds <= s <= maxSeconds -> wrap64 (s * Second) = s * Second.
Proof.
  unfold maxSeconds, Second. intros H. apply wrap64_small. lia.
Qed.

Lemma pollForToken_loop fuel srv start setup apiURL deviceCode interval
    expiresIn :
  0 < wrap64 (interval * Second) ->
  pollForToken fuel srv start setup apiURL deviceCode interval expiresIn =
  pollLoop fuel srv (tokenURL apiURL) deviceCode (deadline start expiresIn)
    (pollTicker (start + setup) interval) (start + setup) [].
Proof.
  intros Hp. unfold pollForToken, NewTicker.
  destruct (Z.leb_spec (wrap64 (interval * Second)) 0); [lia | reflexivity].
Qed.

(** Every run that returns reports either a token or an error, and a token
    exactly when the reply to its last token check decoded with an empty
    [error]. *)
Lemma pollLoop_returned srv url deviceCode timeout fuel :
  forall ticker t log log' at_ token err,
  (forall n tok, length log = S n ->
     ~ (answer (srv url deviceCode n) = Body tok /\ Error tok = "")) ->
  pollLoop fuel srv url deviceCode timeout ticker t log =
    Returned log' at_ token err ->
  (token = None <-> err <> None) /\
  forall tok, token = Some tok /\ err = None <->
    exists n, length log' = S n /\
      answer (srv url deviceCode n) = Body tok /\ Error tok = "".
Proof.
  induction fuel as [| fuel IH]; intros ticker t log log' at_ token err Hinv;
    [discriminate |].
  cbn [pollLoop]. destruct (recv ticker t) as [now ticker'].
  remember (checkToken (answer (srv url deviceCode (length log)))) as c
    eqn:Hc.
  assert (Hlast : forall n tok,
             length (log ++ [now]) = S n ->
             answer (srv url deviceCode n) = Body tok /\ Error tok = "" ->
             c = (Some tok, None)).
  { intros n tok Hn Ha. rewrite length_app in Hn. cbn in Hn.
    replace (length log) with n in Hc by lia. subst c.
    apply checkToken_success. exact Ha. }
  assert (Hfail : forall e, (forall tok, c <> (Some tok, None)) ->
             Returned (log ++ [now]) (now + latency (srv url deviceCode
               (length log))) None (Some e) = Returned log' at_ token err ->
             (token = None <-> err <> None) /\
             forall tok, token = Some tok /\ err = None <->
               exists n, length log' = S n /\
                 answer (srv url deviceCode n) = Body tok /\ Error tok = "").
  { intros e Hne [= <- <- <- <-]. split; [split; congruence |].
    intros tok. split; [intros [? ?]; discriminate |].
    intros (n & Hn & Ha). destruct (Hne tok). eauto. }
  destruct (timeout <? now).
  { intros [= <- <- <- <-]. split; [split; congruence |].
    intros tok. split; [intros [? ?]; discriminate |].
    intros (n & Hn & Ha). destruct (Hinv n tok Hn). exact Ha. }
  destruct c as [[tok' |] [e |]].
  - destruct (_ || _).
    + apply IH. intros n tok Hn Ha. discriminate (Hlast n tok Hn Ha).
    + apply Hfail. discriminate.
  - intros [= <- <- <- <-]. split; [split; congruence |].
    intros tok. split.
    + intros [[= ->] _]. exists (length log). rewrite length_app. cbn.
      split; [lia |]. apply checkToken_success. auto.
    + intros (n & Hn & Ha). specialize (Hlast n tok Hn Ha).
      injection Hlast as ->. auto.
  - destruct (_ || _).
    + apply IH. intros n tok Hn Ha. discriminate (Hlast n tok Hn Ha).
    + apply Hfail. discriminate.
  - apply IH. intros n tok Hn Ha. discriminate (Hlast n tok Hn Ha).
Qed.

Section Bounded.

Variable srv : endpoint.
Variables url deviceCode : string.
Variables start timeout p L : Z.
Hypothesis p_pos : 0 < p.
Hypothesis latency_bound :
  forall k, 0 <= latency (srv url deviceCode k) <= L.

(** With a ticker due by [next + f * p], [f + 1] iterations are enough. *)
Lemma pollLoop_terminates f : forall ticker t log,
  period ticker = p ->
  timeout < next ticker + Z.of_nat f * p ->
  exists log' at_ token err,
    pollLoop (S f) srv url deviceCode timeout ticker t log =
      Returned log' at_ token err.
Proof.
  induction f as [| f IH]; intros ticker t log Hper Hdue; cbn [pollLoop];
    destruct (recv ticker t) as [now ticker'] eqn:Hr;
    apply recv_spec in Hr; try lia;
    destruct Hr as (Hnow & Hper' & Hnext & Hadv);
    destruct (Z.ltb_spec timeout now); eauto; try lia.
  assert (Hgo : exists log' at_ token err,
             pollLoop (S f) srv url deviceCode timeout ticker'
               (now + latency (srv url deviceCode (length log)))
               (log ++ [now]) = Returned log' at_ token err).
  { apply IH; [lia | nia]. }
  destruct (checkToken _) as [[tok |] [e |]]; eauto;
    destruct (_ || _); eauto.
Qed.

Lemma pollLoop_fuel_mono f : forall g ticker t log log' at_ token err,
  pollLoop f srv url deviceCode timeout ticker t log =
    Returned log' at_ token err ->
  (f <= g)%nat ->
  pollLoop g srv url deviceCode timeout ticker t log =
    Returned log' at_ token err.
Proof.
  induction f as [| f IH]; intros g ticker t log log' at_ token err;
    [discriminate |].
  intros Hrun Hle. destruct g as [| g]; [lia |].
  cbn [pollLoop] in *. destruct (recv ticker t) as [now ticker'].
  destruct (timeout <? now); [exact Hrun |].
  destruct (checkToken _) as [[tok |] [e |]]; try exact Hrun;
    try destruct (_ || _); try exact Hrun; apply IH; try exact Hrun; lia.
Qed.

Local Abbreviation paced := (client.paced start timeout p).

Lemma paced_snoc log now :
  paced log -> start + (Z.of_nat (length log) + 1) * p <= now <= timeout ->
  paced (log ++ [now]).
Proof.
  intros Hlog Hnow k c Hk. apply lookup_snoc_Some in Hk as [[_ Hk] | [-> <-]].
  - apply Hlog. exact Hk.
  - exact Hnow.
Qed.

Lemma pollLoop_bounds slack (slack_nonneg : 0 <= slack) fuel :
  forall ticker t log log' at_ token err,
  period ticker = p ->
  t <= timeout + slack + L ->
  next ticker <= timeout + slack + p ->
  start + (Z.of_nat (length log) + 1) * p <= next ticker ->
  paced log ->
  pollLoop fuel srv url deviceCode timeout ticker t log =
    Returned log' at_ token err ->
  at_ <= timeout + slack + Z.max p L /\ paced log' /\
  ((forall k, retriable (answer (srv url deviceCode k)) = true) ->
   token = None /\ err = Some "authorization timeout exceeded" /\
   timeout < at_).
Proof.
  induction fuel as [| fuel IH];
    intros ticker t log log' at_ token err Hper Ht Hnx Hpace Hlog;
    [discriminate |].
  cbn [pollLoop]. destruct (recv ticker t) as [now ticker'] eqn:Hr.
  apply recv_spec in Hr; [| lia].
  destruct Hr as (Hnow & Hper' & Hnext & Hadv).
  destruct (Z.ltb_spec timeout now) as [Hout | Hin].
  { intros [= <- <- <- <-]. split; [lia | split; [exact Hlog |]].
    intros _. repeat split; lia. }
  pose proof (latency_bound (length log)) as Hlat.
  assert (Hlog' : paced (log ++ [now])) by (apply paced_snoc; [auto | lia]).
  assert (Hgo : pollLoop fuel srv url deviceCode timeout ticker'
                  (now + latency (srv url deviceCode (length log)))
                  (log ++ [now]) = Returned log' at_ token err ->
                at_ <= timeout + slack + Z.max p L /\ paced log' /\
                ((forall k, retriable (answer (srv url deviceCode k)) = true)
                 -> token = None /\
                    err = Some "authorization timeout exceeded" /\
                    timeout < at_)).
  { apply IH; auto; try lia. rewrite length_app. cbn. lia. }
  assert (Hret : forall tok e,
            (forall e', checkToken (answer (srv url deviceCode (length log)))
                          = (None, Some e') ->
                        (e' == "authorization_pending")
                        || (e' == "slow_down") = false) ->
            Returned (log ++ [now])
              (now + latency (srv url deviceCode (length log))) tok e =
              Returned log' at_ token err ->
            at_ <= timeout + slack + Z.max p L /\ paced log' /\
            ((forall k, retriable (answer (srv url deviceCode k)) = true)
             -> token = None /\
                err = Some "authorization timeout exceeded" /\
                timeout < at_)).
  { intros tok e Hno [= <- <- <- <-]. split; [lia | split; [exact Hlog' |]].
    intros Hall.
    destruct (checkToken_retriable _ (Hall (length log))) as (e' & Hc & He).
    rewrite (Hno e' Hc) in He. discriminate. }
  destruct (checkToken _) as [[tok |] [e |]] eqn:Hc.
  - destruct (_ || _) eqn:He; [exact Hgo |]. apply Hret. discriminate.
  - apply Hret. discriminate.
  - destruct (_ || _) eqn:He; [exact Hgo |]. apply Hret.
    intros e' [= <-]. exact He.
  - exact Hgo.
Qed.

(** When no call outlasts the period no tick is ever late: the calls are
    made exactly one period apart. *)
Lemma pollLoop_on_the_beat fuel : forall ticker t log log' at_ token err,
  (forall k, latency (srv url deviceCode k) <= p) ->
  period ticker = p ->
  t <= next ticker ->
  next ticker = start + (Z.of_nat (length log) + 1) * p ->
  (forall k c, log !! k = Some c -> c = start + (Z.of_nat k + 1) * p) ->
  pollLoop fuel srv url deviceCode timeout ticker t log =
    Returned log' at_ token err ->
  forall k c, log' !! k = Some c -> c = start + (Z.of_nat k + 1) * p.
Proof.
  induction fuel as [| fuel IH];
    intros ticker t log log' at_ token err Hshort Hper Ht Hnx Hlog;
    [discriminate |].
  cbn [pollLoop]. destruct (recv ticker t) as [now ticker'] eqn:Hr.
  assert (Hnow : now = next ticker /\ next ticker' = next ticker + p /\
                 period ticker' = p).
  { unfold recv in Hr. destruct (Z.leb_spec (next ticker) t).
    - injection Hr as <- <-. cbn. replace (t - next ticker) with 0 by lia.
      rewrite Hper, Z.div_0_l by lia. repeat split; lia.
    - injection Hr as <- <-. cbn. repeat split; lia. }
  destruct Hnow as (-> & Hnx' & Hper').
  assert (Hlog' : forall k c, (log ++ [next ticker])%list !! k = Some c ->
                    c = start + (Z.of_nat k + 1) * p).
  { intros k c Hk. apply lookup_snoc_Some in Hk as [[_ Hk] | [-> <-]]; auto. }
  assert (Hgo : pollLoop fuel srv url deviceCode timeout ticker'
                  (next ticker + latency (srv url deviceCode (length log)))
                  (log ++ [next ticker]) = Returned log' at_ token err ->
                forall k c, log' !! k = Some c ->
                  c = start + (Z.of_nat k + 1) * p).
  { apply IH; auto.
    - specialize (Hshort (length log)). lia.
    - rewrite length_app. cbn. lia. }
  destruct (timeout <? next ticker); [intros [= <- <- <- <-]; exact Hlog |].
  destruct (checkToken _) as [[tok |] [e |]]; try destruct (_ || _);
    try exact Hgo; intros [= <- <- <- <-]; exact Hlog'.
Qed.

End Bounded.

(** ** Claims about the poll loop *)

Lemma pollTicker_period start interval :
  period (pollTicker start interval) = wrap64 (interval * Second).
Proof. reflexivity. Qed.

(** The run up to and including the [n]-th token check, when the earlier
    replies were retriable and the [n]-th tick is in time. *)
Lemma pollForToken_reaches srv start setup apiURL deviceCode interval
    expiresIn n fuel :
  0 < wrap64 (interval * Second) ->
  (forall k, (k < n)%nat ->
     retriable (answer (srv (tokenURL apiURL) deviceCode k)) = true /\
     0 <= latency (srv (tokenURL apiURL) deviceCode k)) ->
  pollTick srv (start + setup) apiURL deviceCode interval n <=
    deadline start expiresIn ->
  pollForToken (n + S fuel) srv start setup apiURL deviceCode interval
    expiresIn =
  match checkToken (answer (srv (tokenURL apiURL) deviceCode n)) with
  | (_, Some err) =>
      if (err == "authorization_pending") || (err == "slow_down")
      then pollLoop fuel srv (tokenURL apiURL) deviceCode
             (deadline start expiresIn)
             (snd (entered srv (tokenURL apiURL) deviceCode
                     (pollTicker (start + setup) interval) (start + setup)
                     (S n)))
             (fst (entered srv (tokenURL apiURL) deviceCode
                     (pollTicker (start + setup) interval) (start + setup)
                     (S n)))
             (map (pollTick srv (start + setup) apiURL deviceCode interval)
                (seq 0 (S n)))
      else Returned
             (map (pollTick srv (start + setup) apiURL deviceCode interval)
                (seq 0 (S n)))
             (pollTick srv (start + setup) apiURL deviceCode interval n
              + latency (srv (tokenURL apiURL) deviceCode n))
             None (Some err)
  | (Some token, None) =>
      Returned
        (map (pollTick srv (start + setup) apiURL deviceCode interval)
           (seq 0 (S n)))
        (pollTick srv (start + setup) apiURL deviceCode interval n
         + latency (srv (tokenURL apiURL) deviceCode n))
        (Some token) None
  | (None, None) =>
      pollLoop fuel srv (tokenURL apiURL) deviceCode
        (deadline start expiresIn)
        (snd (entered srv (tokenURL apiURL) deviceCode
                (pollTicker (start + setup) interval) (start + setup)
                (S n)))
        (fst (entered srv (tokenURL apiURL) deviceCode
                (pollTicker (start + setup) interval) (start + setup)
                (S n)))
        (map (pollTick srv (start + setup) apiURL deviceCode interval)
           (seq 0 (S n)))
  end.
Proof.
  intros Hp Hretry Hn.
  rewrite pollForToken_loop by exact Hp.
  pose proof (pollLoop_skip srv (tokenURL apiURL) deviceCode
                (deadline start expiresIn)
                (pollTicker (start + setup) interval) (start + setup)
                n 0%nat (S fuel)) as Hskip.
  cbn [Nat.add entered fst snd seq map] in Hskip. rewrite Hskip.
  - rewrite pollLoop_step.
    destruct (Z.ltb_spec (deadline start expiresIn)
                (tickAt srv (tokenURL apiURL) deviceCode
                   (pollTicker (start + setup) interval) (start + setup) n))
      as [Hlate | _].
    + unfold pollTick in Hn. lia.
    + rewrite state_S. reflexivity.
  - intros k Hk. destruct (Hretry k ltac:(lia)) as [Hr _]. split; [exact Hr |].
    transitivity (pollTick srv (start + setup) apiURL deviceCode interval n);
      [| exact Hn].
    apply tick_mono_le; [exact Hp | | lia].
    intros j Hj. apply Hretry. exact Hj.
Qed.

(** C1 (as amended). A call of [pollForToken] that returns reports either a
    token or an error, and it reports the token [tok] exactly when the reply
    to its last token check decoded to [tok] with an empty [error]. The
    [access_token] of the reply plays no part. *)
Theorem poll_success_iff_empty_error fuel srv start setup apiURL deviceCode
    interval expiresIn log at_ token err :
  pollForToken fuel srv start setup apiURL deviceCode interval expiresIn =
    Returned log at_ token err ->
  (token = None <-> err <> None) /\
  forall tok, token = Some tok /\ err = None <->
    exists n, length log = S n /\
      answer (srv (tokenURL apiURL) deviceCode n) = Body tok /\
      Error tok = "".
Proof.
  unfold pollForToken.
  destruct (NewTicker (start + setup) (wrap64 (interval * Second)));
    [| discriminate].
  apply pollLoop_returned. intros n tok Hn. discriminate Hn.
Qed.

Lemma poll_success_iff_empty_error_witness :
  (@None TokenResponse = None <->
   Some "authorization timeout exceeded" <> @None error) /\
  forall tok, None = Some tok /\
              Some "authorization timeout exceeded" = @None error <->
    exists n, length [5 * Second + sample.setup] = S n /\
      answer (sample.neverAuthorised (tokenURL sample.api) "dc-1" n) =
        Body tok /\
      Error tok = "".
Proof.
  apply (poll_success_iff_empty_error 3 sample.neverAuthorised 0
           sample.setup sample.api "dc-1" 5 10 _
           (10 * Second + sample.setup)).
  reflexivity.
Defined.

(** C1, refuted as stated: a reply with an empty [error] and an empty
    [access_token] is returned as a success on the first tick. *)
Lemma blank_reply_is_success :
  pollForToken 1 sample.blankBody 0 sample.setup sample.api "dc-1" 5 20 =
    Returned [5 * Second + sample.setup] (5 * Second + sample.setup)
      (Some sample.blank) None /\
  AccessToken sample.blank = "" /\ Error sample.blank = "".
Proof. repeat split. Qed.

(** C2. Retry transparency: after [n] replies that are all
    [authorization_pending] or [slow_down], a reply without error whose tick
    comes no later than the deadline makes [pollForToken] return that very
    token and no error; none of the retriable replies ends the run.  The
    deadline counts from the entry of the call and the ticks from the
    creation of the ticker, some [setup > 0] later: a tick due exactly a
    lifetime after the entry is therefore late, and not covered. *)
Theorem retry_transparency srv start setup apiURL deviceCode interval
    expiresIn n tok fuel :
  0 < setup ->
  0 < wrap64 (interval * Second) ->
  (forall k, (k < n)%nat ->
     retriable (answer (srv (tokenURL apiURL) deviceCode k)) = true /\
     0 <= latency (srv (tokenURL apiURL) deviceCode k)) ->
  answer (srv (tokenURL apiURL) deviceCode n) = Body tok ->
  Error tok = "" ->
  pollTick srv (start + setup) apiURL deviceCode interval n <=
    deadline start expiresIn ->
  (n < fuel)%nat ->
  pollForToken fuel srv start setup apiURL deviceCode interval expiresIn =
    Returned
      (map (pollTick srv (start + setup) apiURL deviceCode interval)
         (seq 0 (S n)))
      (pollTick srv (start + setup) apiURL deviceCode interval n
       + latency (srv (tokenURL apiURL) deviceCode n))
      (Some tok) None.
Proof.
  intros _ Hp Hretry Hbody Herr Hn Hfuel.
  replace fuel with (n + S (fuel - S n))%nat by lia.
  rewrite pollForToken_reaches by assumption.
  assert (Hc : checkToken (answer (srv (tokenURL apiURL) deviceCode n)) =
               (Some tok, None)) by (apply checkToken_success; auto).
  rewrite Hc. reflexivity.
Qed.

Lemma retry_transparency_witness :
  pollForToken 3 sample.pendingTwice 0 sample.setup sample.api "dc-1" 5 20 =
    Returned [5 * Second + sample.setup; 10 * Second + sample.setup;
              15 * Second + sample.setup]
      (15 * Second + sample.setup) (Some sample.tokA) None.
Proof.
  apply (retry_transparency sample.pendingTwice 0 sample.setup sample.api
           "dc-1" 5 20 2 sample.tokA 3).
  - reflexivity.
  - reflexivity.
  - intros [| [| k]] Hk; [split; [reflexivity | cbn; lia] .. | lia].
  - reflexivity.
  - reflexivity.
  - vm_compute. discriminate.
  - lia.
Defined.

(** The same server asked with a lifetime of 15 s: the token is ready for
    the third tick, which is due a lifetime after the ticker was created
    and so comes [setup] after the deadline.  The run times out. *)
Example tick_due_on_the_deadline_is_late :
  pollForToken 3 sample.pendingTwice 0 sample.setup sample.api "dc-1" 5 15 =
    Returned [5 * Second + sample.setup; 10 * Second + sample.setup]
      (15 * Second + sample.setup) None
      (Some "authorization timeout exceeded").
Proof. reflexivity. Qed.

(** C3. Immediate failure: a reply whose [error] is neither empty nor one
    of the two retriable values ends [pollForToken] on the tick that
    received it (the first one when [n = 0]), with the error text
    [token error: ] followed by the server's [error]; the log holds the
    [n + 1] checks made so far and no later one, whatever fuel is left.
    The tick must come no later than the deadline; as the ticker is created
    some [setup > 0] after the clock was read, a first tick due exactly a
    lifetime after the entry is late, and the run then times out without
    asking. *)
Theorem fatal_error_ends_poll srv start setup apiURL deviceCode interval
    expiresIn n tokenResp fuel :
  0 < setup ->
  0 < wrap64 (interval * Second) ->
  (forall k, (k < n)%nat ->
     retriable (answer (srv (tokenURL apiURL) deviceCode k)) = true /\
     0 <= latency (srv (tokenURL apiURL) deviceCode k)) ->
  answer (srv (tokenURL apiURL) deviceCode n) = Body tokenResp ->
  Error tokenResp <> "" ->
  Error tokenResp <> "authorization_pending" ->
  Error tokenResp <> "slow_down" ->
  pollTick srv (start + setup) apiURL deviceCode interval n <=
    deadline start expiresIn ->
  (n < fuel)%nat ->
  pollForToken fuel srv start setup apiURL deviceCode interval expiresIn =
    Returned
      (map (pollTick srv (start + setup) apiURL deviceCode interval)
         (seq 0 (S n)))
      (pollTick srv (start + setup) apiURL deviceCode interval n
       + latency (srv (tokenURL apiURL) deviceCode n))
      None (Some ("token error: " +:+ Error tokenResp)).
Proof.
  intros _ Hp Hretry Hbody H1 H2 H3 Hn Hfuel.
  replace fuel with (n + S (fuel - S n))%nat by lia.
  rewrite pollForToken_reaches by assumption.
  rewrite Hbody, checkToken_fatal by assumption.
  rewrite token_error_not_retried. reflexivity.
Qed.

Lemma fatal_error_ends_poll_witness :
  pollForToken 100 sample.denied 0 sample.setup sample.api "dc-1" 5 20 =
    Returned [5 * Second + sample.setup] (5 * Second + sample.setup) None
      (Some "token error: access_denied").
Proof.
  apply (fatal_error_ends_poll sample.denied 0 sample.setup sample.api
           "dc-1" 5 20 0
           {| AccessToken := ""; RefreshToken := ""; TokenType := "";
              ExpiresIn := 0; Error := "access_denied" |} 100).
  - reflexivity.
  - reflexivity.
  - intros k Hk. lia.
  - reflexivity.
  - discriminate.
  - discriminate.
  - discriminate.
  - vm_compute. discriminate.
  - lia.
Defined.

(** With a lifetime equal to the interval the refusal is never seen: the
    first tick is already late. *)
Example first_tick_due_on_the_deadline_is_late :
  pollForToken 100 sample.denied 0 sample.setup sample.api "dc-1" 5 5 =
    Returned [] (5 * Second + sample.setup) None
      (Some "authorization timeout exceeded").
Proof. reflexivity. Qed.

(** Scenario 3 of the spec: with a lifetime of 10 s, an interval of 5 s and
    a server that never authorises, the run makes one check and times out
    at the second tick, just after 10 s. *)
Example never_authorised_times_out :
  pollForToken 3 sample.neverAuthorised 0 sample.setup sample.api "dc-1"
    5 10 =
    Returned [5 * Second + sample.setup] (10 * Second + sample.setup) None
      (Some "authorization timeout exceeded").
Proof. reflexivity. Qed.

(** An interval of zero, or one whose nanoseconds overflow to a negative
    duration, makes [time.NewTicker] panic before any polling. *)
Example unusable_interval_panics :
  pollForToken 3 sample.neverAuthorised 0 sample.setup sample.api "dc-1"
    0 10 =
    Panicked "non-positive interval for NewTicker" /\
  pollForToken 3 sample.neverAuthorised 0 sample.setup sample.api "dc-1"
    9223372037 10 =
    Panicked "non-positive interval for NewTicker".
Proof. split; reflexivity. Qed.

(** C4 (as amended). For an interval [i > 0] and a lifetime [e >= 0] whose
    nanoseconds fit 64 bits, a ticker created [setup >= 0] after the entry,
    and replies of any kind that each take between 0 and [L] nanoseconds,
    [pollForToken] returns after at most [e / i + 1] iterations, no later
    than [e] seconds plus the larger of the interval and [L] after the
    ticker was created.  Every token check is made no later than the
    deadline [start + e], the [k]-th one ([k = 0, 1, ...]) no earlier than
    [k + 1] intervals after the ticker was created.  If every reply is
    retriable the result is the timeout error, reported after the deadline.
    If no reply takes longer than the interval, the checks are made exactly
    one interval apart. *)
Theorem poll_terminates_within srv start setup apiURL deviceCode interval
    expiresIn L fuel :
  0 <= setup ->
  0 < interval <= maxSeconds ->
  0 <= expiresIn <= maxSeconds ->
  (forall k, 0 <= latency (srv (tokenURL apiURL) deviceCode k) <= L) ->
  (Z.to_nat (expiresIn / interval) < fuel)%nat ->
  exists log at_ token err,
    pollForToken fuel srv start setup apiURL deviceCode interval expiresIn =
      Returned log at_ token err /\
    at_ <= start + setup + expiresIn * Second
           + Z.max (interval * Second) L /\
    (forall k c, log !! k = Some c ->
       start + setup + (Z.of_nat k + 1) * (interval * Second) <= c
         <= start + expiresIn * Second) /\
    ((forall k,
        retriable (answer (srv (tokenURL apiURL) deviceCode k)) = true) ->
     token = None /\ err = Some "authorization timeout exceeded" /\
     start + expiresIn * Second < at_) /\
    ((forall k,
        latency (srv (tokenURL apiURL) deviceCode k) <= interval * Second) ->
     forall k c, log !! k = Some c ->
       c = start + setup + (Z.of_nat k + 1) * (interval * Second)).
Proof.
  intros Hsetup Hi He Hlat Hfuel.
  assert (Hwi : wrap64 (interval * Second) = interval * Second)
    by (apply wrap64_seconds; unfold maxSeconds in *; lia).
  assert (Hwe : wrap64 (expiresIn * Second) = expiresIn * Second)
    by (apply wrap64_seconds; unfold maxSeconds in *; lia).
  assert (Hp : 0 < interval * Second) by (unfold Second; lia).
  assert (HE : 0 <= expiresIn * Second) by (unfold Second; lia).
  rewrite pollForToken_loop by lia.
  set (created := start + setup).
  set (f := Z.to_nat (expiresIn / interval)).
  assert (Hdue : deadline start expiresIn <
                 next (pollTicker created interval)
                 + Z.of_nat f * (interval * Second)).
  { unfold deadline, pollTicker. cbn [next]. rewrite Hwi, Hwe. subst f.
    rewrite Z2Nat.id by (apply Z.div_pos; lia).
    pose proof (Z.div_mod expiresIn interval ltac:(lia)) as Hdm.
    pose proof (Z.mod_pos_bound expiresIn interval ltac:(lia)) as Hm.
    unfold Second. subst created. nia. }
  destruct (pollLoop_terminates srv (tokenURL apiURL) deviceCode
              (deadline start expiresIn) (interval * Second) Hp f
              (pollTicker created interval) created []) as
    (log & at_ & token & err & Hrun); [exact Hwi | exact Hdue |].
  apply pollLoop_fuel_mono with (g := fuel) in Hrun; [| lia].
  exists log, at_, token, err. split; [exact Hrun |].
  pose proof (Hlat 0%nat) as HL.
  destruct (pollLoop_bounds srv (tokenURL apiURL) deviceCode created
              (deadline start expiresIn) (interval * Second) L Hp Hlat
              setup Hsetup
              fuel (pollTicker created interval) created [] log at_ token
              err)
    as (Hat & Hpaced & Htimeout); try exact Hrun.
  - exact Hwi.
  - unfold deadline. rewrite Hwe. subst created. lia.
  - unfold deadline, pollTicker. cbn [next]. rewrite Hwe, Hwi.
    subst created. lia.
  - unfold pollTicker. cbn [next length]. rewrite Hwi. lia.
  - intros k c Hk. discriminate Hk.
  - unfold deadline in *. rewrite Hwe in *.
    split; [lia |]. split; [exact Hpaced |]. split; [exact Htimeout |].
    intros Hshort.
    apply (pollLoop_on_the_beat srv (tokenURL apiURL) deviceCode created
             (start + expiresIn * Second) (interval * Second) Hp
             fuel (pollTicker created interval) created [] log at_ token
             err);
      try exact Hrun; try exact Hshort.
    + exact Hwi.
    + unfold pollTicker. cbn [next]. rewrite Hwi. lia.
    + unfold pollTicker. cbn [next length]. rewrite Hwi. lia.
    + intros k c Hk. discriminate Hk.
Qed.

Lemma poll_terminates_within_witness :
  exists log at_ token err,
    pollForToken 3 sample.neverAuthorised 0 sample.setup sample.api "dc-1"
      5 10 =
      Returned log at_ token err /\
    at_ <= 0 + sample.setup + 10 * Second
           + Z.max (5 * Second) (1 * Second) /\
    (forall k c, log !! k = Some c ->
       0 + sample.setup + (Z.of_nat k + 1) * (5 * Second) <= c
         <= 0 + 10 * Second) /\
    ((forall k,
        retriable
          (answer (sample.neverAuthorised (tokenURL sample.api) "dc-1" k))
        = true) ->
     token = None /\ err = Some "authorization timeout exceeded" /\
     0 + 10 * Second < at_) /\
    ((forall k,
        latency (sample.neverAuthorised (tokenURL sample.api) "dc-1" k)
        <= 5 * Second) ->
     forall k c, log !! k = Some c ->
       c = 0 + sample.setup + (Z.of_nat k + 1) * (5 * Second)).
Proof.
  apply (poll_terminates_within sample.neverAuthorised 0 sample.setup
           sample.api "dc-1" 5 10 (1 * Second) 3).
  - unfold sample.setup. lia.
  - unfold maxSeconds. lia.
  - unfold maxSeconds. lia.
  - intros k. unfold sample.neverAuthorised, Second. cbn [latency]. lia.
  - vm_compute. lia.
Defined.

(** C4, refuted as stated.  With an interval of 5 s and a lifetime of 12 s,
    a reply that takes 9 s to the second check keeps the call from
    returning until 19 s after its ticker was created, later than 12 + 5 s
    after it was entered.  And after a first reply that takes 9.5 s the
    next two checks are made half a second apart. *)
Lemma slow_reply_breaks_the_bounds :
  pollForToken 3 (sample.stall 1 (9 * Second)) 0 sample.setup sample.api
    "dc-1" 5 12 =
    Returned [5 * Second + sample.setup; 10 * Second + sample.setup]
      (19 * Second + sample.setup) None
      (Some "authorization timeout exceeded") /\
  0 + (12 + 5) * Second < 19 * Second + sample.setup /\
  pollForToken 5 (sample.stall 0 9500000000) 0 sample.setup sample.api
    "dc-1" 5 22 =
    Returned [5 * Second + sample.setup; 14500000000 + sample.setup;
              15 * Second + sample.setup; 20 * Second + sample.setup]
      (25 * Second + sample.setup) None
      (Some "authorization timeout exceeded") /\
  (15 * Second + sample.setup) - (14500000000 + sample.setup) < 5 * Second.
Proof. repeat split. Qed.

(** ** The token store *)

Import config.

Lemma Unmarshal_Marshal c : Unmarshal (Marshal c) = c.
Proof.
  destruct c as [u a r x]. unfold Marshal, Unmarshal, omitempty. cbn.
  destruct (String.eqb_spec x ""), (String.eqb_spec r ""),
    (String.eqb_spec a ""); subst; f_equal; by simplify_map_eq.
Qed.

Lemma GetConfigPath_withFile fs f :
  GetConfigPath (withFile fs f) = GetConfigPath fs.
Proof. reflexivity. Qed.

Lemma withFile_withFile fs f g : withFile (withFile fs f) g = withFile fs g.
Proof. reflexivity. Qed.

(** A successful [Save] writes the marshalled configuration and nothing
    else. *)
Lemma Save_ok c fs fs' :
  Save c fs = (None, fs') ->
  GetConfigPath fs = None /\ writeFile fs = None /\
  fs' = withFile fs (Present (Object (Marshal c))).
Proof.
  unfold Save. destruct (GetConfigPath fs); [discriminate |].
  destruct (writeFile fs) as [[e f] |]; [discriminate |].
  intros [= <-]. auto.
Qed.

Lemma Save_ok_intro c fs :
  GetConfigPath fs = None -> writeFile fs = None ->
  Save c fs = (None, withFile fs (Present (Object (Marshal c)))).
Proof. unfold Save. intros -> ->. reflexivity. Qed.

(** A loaded configuration always names an API. *)
Lemma Load_APIURL fs c : Load fs = Ok c -> APIURL c <> "".
Proof.
  unfold Load. destruct (GetConfigPath fs); [discriminate |].
  destruct (configFile fs) as [| e | [e | m]]; try discriminate.
  - intros [= <-]. discriminate.
  - destruct (String.eqb_spec (APIURL (Unmarshal m)) "") as [He | Hne];
      intros [= <-]; [discriminate | exact Hne].
Qed.

(** Reading back what a successful [Save] wrote. *)
Lemma Load_after_Save c fs fs' :
  Save c fs = (None, fs') ->
  Load fs' =
    Ok (if APIURL c == "" then
          {| APIURL := APIURL defaultConfig; AccessToken := AccessToken c;
             RefreshToken := RefreshToken c; TokenExpiry := TokenExpiry c |}
        else c).
Proof.
  intros Hs. apply Save_ok in Hs as (Hpath & _ & ->).
  unfold Load. rewrite GetConfigPath_withFile, Hpath.
  cbn [withFile configFile]. rewrite Unmarshal_Marshal.
  destruct (APIURL c == ""); reflexivity.
Qed.

(** Scenario 5 of the spec: without a config file [Load] returns the
    default configuration, which is not authenticated, and no error. *)
Example load_without_file :
  Load sample.freshDisk = Ok defaultConfig /\
  IsAuthenticated defaultConfig = false.
Proof. split; reflexivity. Qed.

(** C5 (as amended). After a successful [Save] of a configuration, [Load]
    succeeds and returns the saved [access_token], [refresh_token] and
    [token_expiry] (empty ones included), with the saved [api_url] or, when
    that is empty, the default one.  These are all the members there are:
    no [token_type] is stored. *)
Theorem save_load_roundtrip c fs fs' :
  Save c fs = (None, fs') ->
  exists c', Load fs' = Ok c' /\
    AccessToken c' = AccessToken c /\
    RefreshToken c' = RefreshToken c /\
    TokenExpiry c' = TokenExpiry c /\
    APIURL c' = (if APIURL c == "" then APIURL defaultConfig else APIURL c).
Proof.
  intros Hs. rewrite (Load_after_Save c fs fs' Hs).
  destruct (String.eqb_spec (APIURL c) "") as [Hu | Hu].
  - eexists. split; [reflexivity |]. cbn. auto.
  - exists c. auto.
Qed.

Lemma save_load_roundtrip_witness :
  exists c', Load sample.usedDisk = Ok c' /\
    AccessToken c' = AccessToken sample.loggedIn /\
    RefreshToken c' = RefreshToken sample.loggedIn /\
    TokenExpiry c' = TokenExpiry sample.loggedIn /\
    APIURL c' = (if APIURL sample.loggedIn == "" then APIURL defaultConfig
                 else APIURL sample.loggedIn).
Proof.
  apply (save_load_roundtrip sample.loggedIn sample.freshDisk).
  reflexivity.
Defined.

(** C5, refuted as stated: nothing read back from the store gives the
    [token_type] of the token that was stored.  Two tokens that differ in
    their [token_type] only leave the same file behind. *)
Lemma token_type_is_not_stored :
  ~ exists tokenType : Config -> string,
      forall token : client.TokenResponse,
        exists c',
          Load (snd (Save (client.storeToken sample.stamp 0 defaultConfig
                             token) sample.freshDisk)) = Ok c' /\
          tokenType c' = client.TokenType token.
Proof.
  intros [tokenType H].
  destruct (H sample.tokA) as (c1 & H1 & T1).
  destruct (H sample.tokB) as (c2 & H2 & T2).
  vm_compute in H1, H2. rewrite H1 in H2. injection H2 as <-.
  rewrite T1 in T2. discriminate T2.
Qed.

(** ** The auth commands *)

Import cmd.

(** What [Load] returns can be written back and read again unchanged. *)
Lemma Marshal_cleared u :
  Marshal {| APIURL := u; AccessToken := ""; RefreshToken := "";
             TokenExpiry := "" |} = {[ "api_url" := u ]}.
Proof. reflexivity. Qed.

(** C6, evaluated on the code.  A machine holds the complete record of an
    earlier login; [auth login --api-key] then succeeds with a new key.  The
    stored [refresh_token] and [token_expiry] are still those of the earlier
    login.  After [auth login --github-pat] the stored [refresh_token] is.
    (The stored address becomes the default of [--api-url], which both
    command lines leave out.) *)
Theorem login_keeps_stale_fields :
  (let run := loginCmd (sample.withKey "ak_second_key_0002") sample.lenient
                sample.usedDisk in
   failure run = None /\
   Load (disk run) =
     Ok {| APIURL := defaultAPIURL; AccessToken := "ak_second_key_0002";
           RefreshToken := "refresh-of-first-login";
           TokenExpiry := "2020-01-01T00:00:00Z" |}) /\
  (let run := loginCmd (sample.withPAT "ghp_0123456789") sample.lenient
                sample.usedDisk in
   failure run = None /\
   Load (disk run) =
     Ok {| APIURL := defaultAPIURL; AccessToken := "ak_second_key_0002";
           RefreshToken := "refresh-of-first-login";
           TokenExpiry := "2027-01-01T00:00:00Z" |}).
Proof. vm_compute. auto. Qed.

(** The device flow, by contrast, replaces all three auth members: what is
    read back after it succeeded is the new token's [access_token] and
    [refresh_token] and an expiry computed from its [expires_in]. *)
Lemma device_flow_replaces_all_auth_members fuel rfc3339 dev srv start
    setup cfg fs fs' :
  client.AuthenticateDeviceFlow fuel rfc3339 dev srv start setup cfg fs =
    client.FlowReturned None fs' ->
  exists token now c',
    Load fs' = Ok c' /\
    AccessToken c' = client.AccessToken token /\
    RefreshToken c' = client.RefreshToken token /\
    TokenExpiry c' =
      rfc3339 (now + wrap64 (client.ExpiresIn token * Second)).
Proof.
  unfold client.AuthenticateDeviceFlow.
  destruct (client.requestDeviceCode _) as [deviceResp | e]; [| discriminate].
  destruct (client.pollForToken _ _ _ _ _ _ _ _)
    as [msg | | log now [token |] [e |]]; try discriminate.
  destruct (Save _ fs) as [[e |] fs1] eqn:Hs; [discriminate |].
  intros [= <-]. exists token, now.
  rewrite (Load_after_Save _ fs fs1 Hs).
  destruct (APIURL _ == ""); eexists; (split; [reflexivity |]); cbn; auto.
Qed.

(** The same for every machine and key: of the auth members a direct
    login changes the [access_token] and no other.  (The address becomes
    what the global [apiURL] holds, unless that is empty.) *)
Lemma login_with_key_changes_access_token_only inv http fs cfg fs' :
  Load fs = Ok cfg ->
  flagGithubPAT inv = "" -> envGithubPAT inv = "" ->
  loginCmd inv http fs = {| failure := None; disk := fs'; sent := [] |} ->
  exists key, Load fs' =
    Ok {| APIURL := if apiURL inv == "" then APIURL cfg else apiURL inv;
          AccessToken := key;
          RefreshToken := RefreshToken cfg;
          TokenExpiry := TokenExpiry cfg |}.
Proof.
  intros Hload Hflag Henv. unfold loginCmd.
  rewrite Hload, Hflag, Henv. cbn.
  set (apiKey := if flagAPIKey inv == "" then scanned inv
                 else flagAPIKey inv).
  destruct (apiKey == ""); [discriminate |].
  destruct (_ || _); [discriminate |].
  destruct (Save _ fs) as [[e |] fs1] eqn:Hs; [discriminate |].
  intros [= <-]. exists apiKey.
  rewrite (Load_after_Save _ fs fs1 Hs). cbn [APIURL].
  apply Load_APIURL in Hload. apply String.eqb_neq in Hload.
  destruct (String.eqb_spec (apiURL inv) "") as [Hu | Hu]; cbn.
  - rewrite Hload. reflexivity.
  - apply String.eqb_neq in Hu. rewrite Hu. reflexivity.
Qed.

(** A logout succeeds only on a machine whose configuration loads and
    whose config file can be written, and then leaves the file described
    below. *)
Lemma logout_success_inv fs fs1 :
  logoutCmd fs = (None, fs1) ->
  exists cfg, Load fs = Ok cfg /\ writeFile fs = None /\
    fs1 = withFile fs (Present (Object {[ "api_url" := APIURL cfg ]})).
Proof.
  unfold logoutCmd. destruct (Load fs) as [cfg | e] eqn:Hload;
    [| discriminate].
  destruct (Save _ fs) as [[e |] fs'] eqn:Hs; [discriminate |].
  intros [= <-]. apply Save_ok in Hs as (Hpath & Hw & ->).
  rewrite Marshal_cleared. eauto.
Qed.

(** C7. On a machine whose configuration loads as [cfg], whatever tokens it
    holds, and whose config file can be written, [auth logout] succeeds and
    rewrites the file to hold the API address and no token member.  The
    configuration read back has the same address and all three auth members
    empty, and is not authenticated.  A second logout succeeds as well and
    leaves exactly the same state. *)
Theorem logout_clears_and_is_idempotent fs cfg :
  Load fs = Ok cfg -> writeFile fs = None ->
  let cleared :=
    withFile fs (Present (Object {[ "api_url" := APIURL cfg ]})) in
  logoutCmd fs = (None, cleared) /\
  Load cleared =
    Ok {| APIURL := APIURL cfg; AccessToken := ""; RefreshToken := "";
          TokenExpiry := "" |} /\
  (forall c, Load cleared = Ok c -> IsAuthenticated c = false) /\
  logoutCmd cleared = (None, cleared).
Proof.
  intros Hload Hw cleared.
  assert (Hpath : GetConfigPath fs = None).
  { unfold Load in Hload. destruct (GetConfigPath fs); [discriminate |].
    reflexivity. }
  pose proof (Load_APIURL _ _ Hload) as Hurl. apply String.eqb_neq in Hurl.
  assert (Hl : Load cleared =
               Ok {| APIURL := APIURL cfg; AccessToken := "";
                     RefreshToken := ""; TokenExpiry := "" |}).
  { unfold Load, cleared. rewrite GetConfigPath_withFile, Hpath.
    cbn [withFile configFile]. rewrite <- Marshal_cleared, Unmarshal_Marshal.
    cbn [APIURL]. rewrite Hurl. reflexivity. }
  split; [| split; [exact Hl | split]].
  - unfold logoutCmd. rewrite Hload.
    rewrite Save_ok_intro by assumption.
    rewrite Marshal_cleared. reflexivity.
  - intros c Hc. rewrite Hl in Hc. injection Hc as <-. reflexivity.
  - unfold logoutCmd. rewrite Hl. cbn [APIURL].
    rewrite Save_ok_intro
      by (unfold cleared; rewrite ?GetConfigPath_withFile; assumption).
    unfold cleared. rewrite withFile_withFile, Marshal_cleared. reflexivity.
Qed.

(** The machine of [sample.usedDisk] is logged in; logout clears it. *)
Lemma logout_clears_and_is_idempotent_witness :
  IsAuthenticated sample.loggedIn = true /\
  Load sample.usedDisk = Ok sample.loggedIn /\
  logoutCmd sample.usedDisk =
    (None, withFile sample.usedDisk
             (Present (Object {[ "api_url" := sample.api ]}))) /\
  Load (withFile sample.usedDisk
          (Present (Object {[ "api_url" := sample.api ]}))) =
    Ok {| APIURL := sample.api; AccessToken := ""; RefreshToken := "";
          TokenExpiry := "" |} /\
  (forall c,
     Load (withFile sample.usedDisk
             (Present (Object {[ "api_url" := sample.api ]}))) = Ok c ->
     IsAuthenticated c = false) /\
  logoutCmd (withFile sample.usedDisk
               (Present (Object {[ "api_url" := sample.api ]}))) =
    (None, withFile sample.usedDisk
             (Present (Object {[ "api_url" := sample.api ]}))).
Proof.
  split; [reflexivity |]. split; [reflexivity |].
  apply (logout_clears_and_is_idempotent sample.usedDisk sample.loggedIn);
    reflexivity.
Defined.




(** A key of at least ten bytes is valid for [isValidAPIKey] exactly when
    it begins with [ak_]. *)
Lemma isValidAPIKey_prefix key :
  isValidAPIKey key = true <->
  (3 < String.length key)%nat /\ String.prefix "ak_" key = true.
Proof.
  unfold isValidAPIKey.
  rewrite andb_true_iff, Nat.ltb_lt, String.eqb_eq, String.prefix_correct.
  reflexivity.
Qed.

(** C10. On the API-key path (no PAT given, configuration loaded) a
    non-empty key that is shorter than ten bytes or does not begin with
    [ak_] makes the command fail with [invalid API key format], the file
    system untouched and nothing sent; any other non-empty key passes the
    test and is handed to [Save]. *)
Theorem malformed_api_key_is_rejected inv http fs cfg apiKey :
  Load fs = Ok cfg ->
  flagGithubPAT inv = "" -> envGithubPAT inv = "" ->
  apiKey = (if flagAPIKey inv == "" then scanned inv else flagAPIKey inv) ->
  apiKey <> "" ->
  (~ ((10 <= String.length apiKey)%nat /\ String.prefix "ak_" apiKey = true)
   -> loginCmd inv http fs =
        {| failure := Some "invalid API key format";
           disk := fs; sent := [] |}) /\
  ((10 <= String.length apiKey)%nat /\ String.prefix "ak_" apiKey = true ->
   failure (loginCmd inv http fs) <> Some "invalid API key format" /\
   disk (loginCmd inv http fs) =
     snd (Save {| APIURL := if apiURL inv == "" then APIURL cfg
                            else apiURL inv;
                  AccessToken := apiKey;
                  RefreshToken := RefreshToken cfg;
                  TokenExpiry := TokenExpiry cfg |} fs)).
Proof.
  intros Hload Hflag Henv Hkey Hne. unfold loginCmd.
  rewrite Hload, Hflag, Henv, <- Hkey. cbn -[Nat.ltb].
  apply String.eqb_neq in Hne. rewrite Hne.
  destruct (Nat.ltb_spec (String.length apiKey) 10) as [Hshort | Hlong]; cbn.
  - split; [reflexivity | intros [Hlen _]; lia].
  - destruct (isValidAPIKey apiKey) eqn:Hv; cbn.
    + apply isValidAPIKey_prefix in Hv as [_ Hv]. split.
      * intros Hbad. destruct Hbad. auto.
      * intros _. destruct (apiURL inv == ""); cbn;
          destruct (Save _ fs) as [[e |] fs']; cbn; split;
          reflexivity || discriminate.
    + split; [reflexivity |]. intros [_ Hp].
      assert (isValidAPIKey apiKey = true)
        by (apply isValidAPIKey_prefix; split; [lia | exact Hp]).
      congruence.
Qed.

Lemma malformed_api_key_is_rejected_witness :
  (~ ((10 <= String.length "sk_second_key")%nat /\
      String.prefix "ak_" "sk_second_key" = true) ->
   loginCmd (sample.withKey "sk_second_key") sample.lenient sample.usedDisk =
     {| failure := Some "invalid API key format";
        disk := sample.usedDisk; sent := [] |}) /\
  ((10 <= String.length "sk_second_key")%nat /\
   String.prefix "ak_" "sk_second_key" = true ->
   failure (loginCmd (sample.withKey "sk_second_key") sample.lenient
              sample.usedDisk) <> Some "invalid API key format" /\
   disk (loginCmd (sample.withKey "sk_second_key") sample.lenient
           sample.usedDisk) =
     snd (Save {| APIURL := if apiURL (sample.withKey "sk_second_key") == ""
                            then APIURL sample.loggedIn
                            else apiURL (sample.withKey "sk_second_key");
                  AccessToken := "sk_second_key";
                  RefreshToken := RefreshToken sample.loggedIn;
                  TokenExpiry := TokenExpiry sample.loggedIn |}
            sample.usedDisk)).
Proof.
  apply (malformed_api_key_is_rejected (sample.withKey "sk_second_key")
           sample.lenient sample.usedDisk sample.loggedIn "sk_second_key").
  - vm_compute. reflexivity.
  - reflexivity.
  - reflexivity.
  - reflexivity.
  - discriminate.
Defined.

(** ** Expiry formatting *)

Section Expiry.

Variable Time : Type.
Variable instant : Time -> Z.
Variable Parse : string -> option Time.
Variable Format : Time -> string.

(** The day count depends on the distance to [now] only. *)
Lemma daysUntil_offset now expiryTime d :
  instant expiryTime = now + d -> - 2 ^ 63 <= d <= 2 ^ 63 - 1 ->
  daysUntil Time instant now expiryTime =
    int (PrimFloat.div (Hours d) (float64 24)).
Proof.
  intros Hi Hd. unfold daysUntil, Sub. rewrite Hi.
  replace (now + d - now) with d by lia.
  change (2 ^ 63) with 9223372036854775808 in *.
  rewrite Z.min_r, Z.max_r by lia. reflexivity.
Qed.

Lemma formatExpiryDate_parsed now isoDate expiryTime :
  isoDate <> "" -> Parse isoDate = Some expiryTime ->
  formatExpiryDate Time instant Parse Format now isoDate =
    let days := daysUntil Time instant now expiryTime in
    if days <? 0 then Format expiryTime +:+ " (EXPIRED)"
    else if days =? 0 then Format expiryTime +:+ " (expires today)"
    else if days =? 1 then Format expiryTime +:+ " (1 day from now)"
    else Format expiryTime +:+ " (" +:+ pretty days +:+ " days from now)".
Proof.
  intros Hne Hp. unfold formatExpiryDate.
  apply String.eqb_neq in Hne. rewrite Hne, Hp. reflexivity.
Qed.

(** The two boundaries that hold: an expiry equal to [now] reads "expires
    today", one exactly 24 hours ahead "1 day from now"; and one exactly 24
    hours back is marked expired. *)
Lemma formatExpiryDate_boundaries now isoDate expiryTime :
  isoDate <> "" -> Parse isoDate = Some expiryTime ->
  (instant expiryTime = now ->
   formatExpiryDate Time instant Parse Format now isoDate =
     Format expiryTime +:+ " (expires today)") /\
  (instant expiryTime = now + 24 * Hour ->
   formatExpiryDate Time instant Parse Format now isoDate =
     Format expiryTime +:+ " (1 day from now)") /\
  (instant expiryTime = now + - (24 * Hour) ->
   formatExpiryDate Time instant Parse Format now isoDate =
     Format expiryTime +:+ " (EXPIRED)").
Proof.
  intros Hne Hp. rewrite (formatExpiryDate_parsed now isoDate expiryTime)
    by assumption.
  repeat split; intros Hi.
  - rewrite (daysUntil_offset now expiryTime 0) by lia. reflexivity.
  - rewrite (daysUntil_offset now expiryTime (24 * Hour))
      by (try exact Hi; unfold Hour, Second; lia).
    reflexivity.
  - rewrite (daysUntil_offset now expiryTime (- (24 * Hour)))
      by (try exact Hi; unfold Hour, Second; lia).
    reflexivity.
Qed.

(** C9, evaluated on the code.  A timestamp one hour in the past (and, for
    that matter, one nanosecond short of a day in the past) is formatted as
    "expires today", not marked expired: the day count is the quotient
    truncated toward zero. *)
Theorem expired_within_a_day_reads_today now isoDate expiryTime :
  isoDate <> "" -> Parse isoDate = Some expiryTime ->
  instant expiryTime = now + - Hour \/
  instant expiryTime = now + - (24 * Hour - 1) ->
  formatExpiryDate Time instant Parse Format now isoDate =
    Format expiryTime +:+ " (expires today)".
Proof.
  intros Hne Hp Hi. rewrite (formatExpiryDate_parsed now isoDate expiryTime)
    by assumption.
  destruct Hi as [Hi | Hi].
  - rewrite (daysUntil_offset now expiryTime (- Hour))
      by (try exact Hi; unfold Hour, Second; lia).
    reflexivity.
  - rewrite (daysUntil_offset now expiryTime (- (24 * Hour - 1)))
      by (try exact Hi; unfold Hour, Second; lia).
    reflexivity.
Qed.

End Expiry.

Lemma expired_within_a_day_reads_today_witness :
  formatExpiryDate Z (fun t => t)
    (fun _ => Some 1767308400000000000)
    (fun _ => "January 1, 2026 at 11:00 PM UTC")
    1767312000000000000 "2026-01-01T23:00:00Z" =
  "January 1, 2026 at 11:00 PM UTC (expires today)".
Proof.
  apply (expired_within_a_day_reads_today Z (fun t => t)
           (fun _ => Some 1767308400000000000)
           (fun _ => "January 1, 2026 at 11:00 PM UTC")
           1767312000000000000 "2026-01-01T23:00:00Z" 1767308400000000000).
  - discriminate.
  - reflexivity.
  - left. reflexivity.
Defined.

(** * Further properties *)

(** ** The API client *)

Lemma newRequest_headers c method url payload :
  api.header (api.newRequest c method url payload) !! "Content-Type" =
    Some "application/json" /\
  api.header (api.newRequest c method url payload) !! "Authorization" =
    (if AccessToken c == "" then None
     else Some ("Bearer " +:+ AccessToken c)).
Proof.
  cbn. unfold api.headers.
  destruct (AccessToken c == ""); cbn; split; by simplify_map_eq.
Qed.

(** [request] sends nothing or the one request it built. *)
Lemma request_sent net c method path body :
  api.sent (api.request net c method path body) = [] \/
  api.sent (api.request net c method path body) =
    [api.newRequest c method (APIURL c +:+ path)
       match body with
       | Some (Ok jsonBody) => Some jsonBody
       | _ => None
       end].
Proof.
  unfold api.request.
  destruct body as [[jsonBody | e] |]; [| left; reflexivity |];
    (destruct (net _) as [e' | e' | e' | status respBody [r | e']];
     try destruct (_ || _); try destruct (api.Error r);
     try destruct (negb _);
     first [left; reflexivity | right; reflexivity]).
Qed.

(** Whatever [request] sends, it sends at most once, to the configured base
    followed by the path, as JSON, and with the stored token as bearer
    credential exactly when there is one: an empty token gives no
    [Authorization] header rather than an empty bearer. *)
Theorem request_carries_stored_token net c method path body req :
  In req (api.sent (api.request net c method path body)) ->
  api.sent (api.request net c method path body) = [req] /\
  api.method req = method /\
  api.url req = APIURL c +:+ path /\
  api.header req !! "Content-Type" = Some "application/json" /\
  api.header req !! "Authorization" =
    (if AccessToken c == "" then None
     else Some ("Bearer " +:+ AccessToken c)).
Proof.
  destruct (request_sent net c method path body) as [-> | ->].
  - intros [].
  - intros [<- | []]. split; [reflexivity |]. split; [reflexivity |].
    split; [reflexivity |]. apply newRequest_headers.
Qed.

(** [request] returns a response exactly when the server answered its one
    request with a status from 200 to 299 and a body that decodes to an
    envelope which either says [success] or carries no [error] object.  So
    any other status is an error whatever the body says, and an envelope
    with [success: false] but no [error] is handed back as a result. *)
Theorem request_succeeds_iff net c method path body r :
  api.returned (api.request net c method path body) = Ok r <->
  exists req status respBody,
    api.sent (api.request net c method path body) = [req] /\
    net req = api.Received status respBody (Ok r) /\
    200 <= status < 300 /\
    (api.Success r = true \/ api.Error r = None).
Proof.
  unfold api.request.
  destruct body as [[jsonBody | e] |];
    [ set (built := api.newRequest c method _ (Some jsonBody))
    | cbn; split; [discriminate | intros (? & ? & ? & [=] & _)]
    | set (built := api.newRequest c method _ None) ].
  all: destruct (net built) as [e' | e' | e' | status respBody [r' | e']]
         eqn:Hn; cbn [api.returned api.sent].
  all: try (split; [discriminate |];
            intros (req & st & rb & Hs & Hnet & _);
            first [discriminate Hs | injection Hs as <-];
            rewrite Hn in Hnet; discriminate Hnet).
  all: destruct (Z.ltb_spec status 200) as [Hlo | Hlo];
         [| destruct (Z.leb_spec 300 status) as [Hhi | Hhi]];
         cbn [orb api.returned api.sent].
  all: try (split; [discriminate |];
            intros (req & st & rb & [= <-] & Hnet & Hst & _);
            rewrite Hn in Hnet; first [discriminate Hnet |
              injection Hnet as <- _ _; lia]).
  all: destruct (api.Error r') as [apiError |] eqn:He;
         [destruct (api.Success r') eqn:Hok |];
         cbn [negb api.returned api.sent].
  all: try (split;
            [ intros [= <-]; exists built, status, respBody;
              repeat split; auto; lia
            | intros (req & st & rb & [= <-] & Hnet & _);
              rewrite Hn in Hnet; injection Hnet as _ _ <-; reflexivity ]).
  all: split; [discriminate |];
         intros (req & st & rb & [= <-] & Hnet & _ & Hr);
         rewrite Hn in Hnet; injection Hnet as _ _ <-;
         destruct Hr; congruence.
Qed.

(** An answer with a status outside 200..299 is reported with the status
    and the raw body, even when the body is a well-formed envelope. *)
Theorem request_reports_status net c method path payload status respBody
    apiResp :
  net (api.newRequest c method (APIURL c +:+ path) payload) =
    api.Received status respBody apiResp ->
  status < 200 \/ 300 <= status ->
  api.returned
    (api.request net c method path (option_map Ok payload)) =
    Err ("API returned status " +:+ pretty status +:+ ": " +:+ respBody).
Proof.
  intros Hn Hst. unfold api.request.
  destruct payload as [jsonBody |]; cbn [option_map]; rewrite Hn;
    (replace ((status <? 200) || (300 <=? status)) with true;
     [reflexivity |]);
    symmetry; apply orb_true_iff; rewrite Z.ltb_lt, Z.leb_le; exact Hst.
Qed.

Lemma request_reports_status_witness :
  api.returned (api.request fixture.down fixture.keyed "GET" "/cache/stats"
                  (option_map Ok None)) =
    Err "API returned status 503: unavailable".
Proof.
  apply (request_reports_status fixture.down fixture.keyed "GET"
           "/cache/stats" None 503 "unavailable"
           (Err "invalid character 'u'")).
  - reflexivity.
  - right. lia.
Defined.

Lemma request_carries_stored_token_witness :
  api.sent (api.request fixture.healthy fixture.keyed "GET" "/cache/stats"
              None) =
    [api.newRequest fixture.keyed "GET" (sample.api +:+ "/cache/stats")
       None] /\
  "GET" = "GET" /\
  sample.api +:+ "/cache/stats" = sample.api +:+ "/cache/stats" /\
  api.header (api.newRequest fixture.keyed "GET"
                (sample.api +:+ "/cache/stats") None) !! "Content-Type" =
    Some "application/json" /\
  api.header (api.newRequest fixture.keyed "GET"
                (sample.api +:+ "/cache/stats") None) !! "Authorization" =
    Some "Bearer ak_first_key_0001".
Proof.
  apply (request_carries_stored_token fixture.healthy fixture.keyed "GET"
           "/cache/stats" None).
  left. reflexivity.
Defined.

(** [GetRaw] asks for the URL it is given, not one under the configured
    base, and still presents the stored token there; it returns the body,
    undecoded, exactly for a status from 200 to 299. *)
Theorem GetRaw_presents_token_anywhere net c url :
  let req := api.newRequest c "GET" url None in
  (api.sent (api.GetRaw net c url) = [] \/
   api.sent (api.GetRaw net c url) = [req]) /\
  api.url req = url /\
  api.header req !! "Authorization" =
    (if AccessToken c == "" then None
     else Some ("Bearer " +:+ AccessToken c)) /\
  forall respBody,
    api.returned (api.GetRaw net c url) = Ok respBody <->
    exists status apiResp,
      net req = api.Received status respBody apiResp /\
      200 <= status < 300.
Proof.
  intros req. split; [| split; [reflexivity | split]].
  - unfold api.GetRaw. fold req.
    destruct (net req) as [e | e | e | status respBody apiResp];
      try destruct (_ || _); auto.
  - apply newRequest_headers.
  - intros respBody. unfold api.GetRaw. fold req.
    destruct (net req) as [e | e | e | status body apiResp] eqn:Hn;
      cbn [api.returned];
      try (split; [discriminate | intros (st & r & [=] & _)]).
    destruct (Z.ltb_spec status 200) as [Hlo | Hlo];
      [| destruct (Z.leb_spec 300 status) as [Hhi | Hhi]];
      cbn [orb api.returned].
    + split; [discriminate | intros (st & r & [= <- _ _] & Hst); lia].
    + split; [discriminate | intros (st & r & [= <- _ _] & Hst); lia].
    + split.
      * intros [= <-]. exists status, apiResp. split; [reflexivity | lia].
      * intros (st & r & [= _ <- _] & _). reflexivity.
Qed.

(** ** Strings *)

Lemma length_append (a b : string) :
  String.length (a +:+ b) = (String.length a + String.length b)%nat.
Proof.
  induction a as [| x a IH]; simpl; [reflexivity | f_equal; exact IH].
Qed.

Lemma substring_0_0 (s : string) : substring 0 0 s = "".
Proof. destruct s; reflexivity. Qed.

Lemma substring_head (a b : string) :
  substring 0 (String.length a) (a +:+ b) = a.
Proof.
  induction a as [| x a IH]; simpl; [apply substring_0_0 | f_equal; exact IH].
Qed.

Lemma substring_whole (s : string) : substring 0 (String.length s) s = s.
Proof.
  induction s as [| x s IH]; simpl; [reflexivity | f_equal; exact IH].
Qed.

Lemma substring_tail (a b : string) :
  substring (String.length a) (String.length b) (a +:+ b) = b.
Proof.
  induction a as [| x a IH]; simpl; [apply substring_whole | exact IH].
Qed.

Lemma length_substring (s : string) : forall n m,
  (n + m <= String.length s)%nat -> String.length (substring n m s) = m.
Proof.
  induction s as [| x s IH]; intros [| n] [| m] H; simpl in *; try lia.
  - f_equal. apply (IH 0%nat m). lia.
  - apply (IH n 0%nat). lia.
  - apply (IH n (S m)). lia.
Qed.

Lemma substring_split (s : string) : forall n,
  (n <= String.length s)%nat ->
  substring 0 n s +:+ substring n (String.length s - n) s = s.
Proof.
  induction s as [| x s IH]; intros [| n] H; simpl in *; try lia.
  - reflexivity.
  - change (String x (substring 0 (String.length s) s) = String x s).
    f_equal. apply substring_whole.
  - change (String x (substring 0 n s
                      +:+ substring n (String.length s - n) s) = String x s).
    f_equal. apply IH. lia.
Qed.

(** [GetBaseURL] removes a final [/api/v1] that follows a non-empty base,
    and nothing else: any other address, [/api/v1] on its own included, is
    returned as it is. *)
Theorem GetBaseURL_strips_api_suffix c :
  (forall base, base <> "" -> APIURL c = base +:+ "/api/v1" ->
     api.GetBaseURL c = base) /\
  ((forall base, base <> "" -> APIURL c <> base +:+ "/api/v1") ->
   api.GetBaseURL c = APIURL c).
Proof.
  unfold api.GetBaseURL. split.
  - intros base Hne ->. rewrite length_append.
    change (String.length "/api/v1") with 7%nat.
    replace (String.length base + 7 - 7)%nat with (String.length base)
      by lia.
    assert (Hlen : (7 <? String.length base + 7)%nat = true).
    { apply Nat.ltb_lt. destruct base; [congruence | cbn; lia]. }
    rewrite Hlen. change 7%nat with (String.length "/api/v1") at 1.
    rewrite substring_tail, substring_head. reflexivity.
  - intros Hno.
    destruct (Nat.ltb_spec 7 (String.length (APIURL c))) as [Hlen | Hlen];
      [| reflexivity].
    destruct (String.eqb_spec
                (substring (String.length (APIURL c) - 7) 7 (APIURL c))
                "/api/v1") as [Hsuf | Hsuf]; [| reflexivity].
    cbn [andb]. exfalso.
    apply (Hno (substring 0 (String.length (APIURL c) - 7) (APIURL c))).
    + intros Hempty.
      pose proof (length_substring (APIURL c) 0
                    (String.length (APIURL c) - 7) ltac:(lia)) as Hl.
      rewrite Hempty in Hl. cbn in Hl. lia.
    + pose proof (substring_split (APIURL c)
                    (String.length (APIURL c) - 7) ltac:(lia)) as Hsp.
      replace (String.length (APIURL c) - (String.length (APIURL c) - 7))%nat
        with 7%nat in Hsp by lia.
      rewrite Hsuf in Hsp. symmetry. exact Hsp.
Qed.

(** ** Commands behind the login *)

(** What a successful logout leaves to be loaded. *)
Lemma Load_after_logout fs fs1 :
  logoutCmd fs = (None, fs1) ->
  exists u, u <> "" /\
    Load fs1 = Ok {| APIURL := u; AccessToken := ""; RefreshToken := "";
                     TokenExpiry := "" |}.
Proof.
  unfold logoutCmd. destruct (Load fs) as [cfg | e] eqn:Hload;
    [| discriminate].
  destruct (Save _ fs) as [[e |] fs'] eqn:Hs; [discriminate |].
  intros [= <-]. apply Load_APIURL in Hload.
  exists (APIURL cfg). split; [exact Hload |].
  rewrite (Load_after_Save _ fs fs' Hs). cbn [APIURL].
  apply String.eqb_neq in Hload. rewrite Hload. reflexivity.
Qed.


(** Without a stored token the cache commands refuse at once: they fail
    with the request to log in and send nothing, whatever [--api-url]
    says. *)
Theorem cache_commands_refuse_without_token net apiURL fs cfg :
  Load fs = Ok cfg -> AccessToken cfg = "" ->
  cli.cacheStatsCmd net apiURL fs =
    {| cli.failure :=
         Some "not authenticated. Run 'armyknife auth login' first";
       cli.sent := [] |} /\
  cli.cacheClearCmd net apiURL fs =
    {| cli.failure :=
         Some "not authenticated. Run 'armyknife auth login' first";
       cli.sent := [] |}.
Proof.
  intros Hload Htok. unfold cli.cacheStatsCmd, cli.cacheClearCmd.
  rewrite Hload. unfold IsAuthenticated. rewrite Htok. split; reflexivity.
Qed.

Lemma cache_commands_refuse_without_token_witness :
  cli.cacheStatsCmd fixture.healthy (flagAPIURL None) sample.freshDisk =
    {| cli.failure :=
         Some "not authenticated. Run 'armyknife auth login' first";
       cli.sent := [] |} /\
  cli.cacheClearCmd fixture.healthy (flagAPIURL None) sample.freshDisk =
    {| cli.failure :=
         Some "not authenticated. Run 'armyknife auth login' first";
       cli.sent := [] |}.
Proof.
  apply (cache_commands_refuse_without_token fixture.healthy (flagAPIURL None)
           sample.freshDisk defaultConfig); reflexivity.
Defined.

(** The client a command builds from the loaded configuration and the
    [--api-url] flag. *)
Lemma cache_commands_sent net apiURL fs cfg :
  Load fs = Ok cfg -> AccessToken cfg <> "" ->
  let c := if negb (apiURL == "") then
             {| APIURL := apiURL; AccessToken := AccessToken cfg;
                RefreshToken := RefreshToken cfg;
                TokenExpiry := TokenExpiry cfg |}
           else cfg in
  cli.sent (cli.cacheStatsCmd net apiURL fs) =
    api.sent (api.request net c "GET" "/cache/stats" None) /\
  cli.sent (cli.cacheClearCmd net apiURL fs) =
    api.sent (api.request net c "POST" "/cache/clear" None).
Proof.
  intros Hload Htok c. apply String.eqb_neq in Htok.
  unfold cli.cacheStatsCmd, cli.cacheClearCmd. rewrite Hload.
  unfold IsAuthenticated. rewrite Htok. cbn [negb]. fold c.
  unfold api.Get, api.Post, api.NewClient.
  split; destruct (api.returned _); reflexivity.
Qed.

(** A request without body, as sent. *)
Lemma request_without_body net c method path req :
  In req (api.sent (api.request net c method path None)) ->
  api.sent (api.request net c method path None) = [req] /\
  req = api.newRequest c method (APIURL c +:+ path) None.
Proof.
  destruct (request_sent net c method path None) as [-> | ->].
  - intros [].
  - intros [<- | []]. split; reflexivity.
Qed.

(** The requests of the cache commands for a value [apiURL] of the global
    variable. *)
Lemma cache_commands_requests net apiURL fs cfg req :
  Load fs = Ok cfg -> AccessToken cfg <> "" ->
  let base := if apiURL == "" then APIURL cfg else apiURL in
  (In req (cli.sent (cli.cacheStatsCmd net apiURL fs)) ->
   cli.sent (cli.cacheStatsCmd net apiURL fs) = [req] /\
   api.method req = "GET" /\ api.url req = base +:+ "/cache/stats") /\
  (In req (cli.sent (cli.cacheClearCmd net apiURL fs)) ->
   cli.sent (cli.cacheClearCmd net apiURL fs) = [req] /\
   api.method req = "POST" /\ api.url req = base +:+ "/cache/clear") /\
  (In req (cli.sent (cli.cacheStatsCmd net apiURL fs)) \/
   In req (cli.sent (cli.cacheClearCmd net apiURL fs)) ->
   api.payload req = None /\
   api.header req !! "Authorization" =
     Some ("Bearer " +:+ AccessToken cfg)).
Proof.
  intros Hload Htok base.
  destruct (cache_commands_sent net apiURL fs cfg Hload Htok)
    as [Hstats Hclear].
  set (c := if negb (apiURL == "") then _ else cfg) in Hstats, Hclear.
  assert (Hc : APIURL c = base /\ AccessToken c = AccessToken cfg)
    by (subst c base; destruct (apiURL == ""); auto).
  destruct Hc as [Hbase Hkey].
  assert (Hreq : forall method path,
            In req (api.sent (api.request net c method path None)) ->
            api.sent (api.request net c method path None) = [req] /\
            api.method req = method /\ api.url req = base +:+ path /\
            api.payload req = None /\
            api.header req !! "Authorization" =
              Some ("Bearer " +:+ AccessToken cfg)).
  { intros method path Hin.
    destruct (request_without_body net c method path req Hin) as [He ->].
    split; [exact He |]. split; [reflexivity |].
    split; [cbn; by rewrite Hbase |]. split; [reflexivity |].
    destruct (newRequest_headers c method (APIURL c +:+ path) None)
      as [_ Ha].
    rewrite Ha, Hkey. apply String.eqb_neq in Htok. by rewrite Htok. }
  rewrite Hstats, Hclear. split; [| split].
  - intros Hin. apply Hreq in Hin. tauto.
  - intros Hin. apply Hreq in Hin. tauto.
  - intros [Hin | Hin]; apply Hreq in Hin; tauto.
Qed.

(** With a stored token each cache command sends at most one request,
    without a body, presenting the stored token, to its route under the
    address that [--api-url] gives.  When the flag is left out that is the
    default of the flag, whatever address is stored; the stored address is
    used only when the flag is given the empty string. *)
Theorem cache_commands_present_stored_token net given fs cfg req :
  Load fs = Ok cfg -> AccessToken cfg <> "" ->
  let apiURL := flagAPIURL given in
  let base := match given with
              | None => defaultAPIURL
              | Some url => if url == "" then APIURL cfg else url
              end in
  (In req (cli.sent (cli.cacheStatsCmd net apiURL fs)) ->
   cli.sent (cli.cacheStatsCmd net apiURL fs) = [req] /\
   api.method req = "GET" /\ api.url req = base +:+ "/cache/stats") /\
  (In req (cli.sent (cli.cacheClearCmd net apiURL fs)) ->
   cli.sent (cli.cacheClearCmd net apiURL fs) = [req] /\
   api.method req = "POST" /\ api.url req = base +:+ "/cache/clear") /\
  (In req (cli.sent (cli.cacheStatsCmd net apiURL fs)) \/
   In req (cli.sent (cli.cacheClearCmd net apiURL fs)) ->
   api.payload req = None /\
   api.header req !! "Authorization" =
     Some ("Bearer " +:+ AccessToken cfg)).
Proof.
  intros Hload Htok apiURL base.
  pose proof (cache_commands_requests net apiURL fs cfg req Hload Htok)
    as H.
  replace (if apiURL == "" then APIURL cfg else apiURL) with base in H;
    [exact H |].
  subst apiURL base. destruct given as [url |]; reflexivity.
Qed.

Lemma cache_commands_present_stored_token_witness :
  let req := fixture.statsRequest in
  let apiURL := flagAPIURL None in
  let base := defaultAPIURL in
  (In req (cli.sent (cli.cacheStatsCmd fixture.healthy apiURL
                       sample.usedDisk)) ->
   cli.sent (cli.cacheStatsCmd fixture.healthy apiURL sample.usedDisk)
     = [req] /\
   api.method req = "GET" /\ api.url req = base +:+ "/cache/stats") /\
  (In req (cli.sent (cli.cacheClearCmd fixture.healthy apiURL
                       sample.usedDisk)) ->
   cli.sent (cli.cacheClearCmd fixture.healthy apiURL sample.usedDisk)
     = [req] /\
   api.method req = "POST" /\ api.url req = base +:+ "/cache/clear") /\
  (In req (cli.sent (cli.cacheStatsCmd fixture.healthy apiURL
                       sample.usedDisk)) \/
   In req (cli.sent (cli.cacheClearCmd fixture.healthy apiURL
                       sample.usedDisk)) ->
   api.payload req = None /\
   api.header req !! "Authorization" = Some "Bearer ak_first_key_0001").
Proof.
  apply (cache_commands_present_stored_token fixture.healthy None
           sample.usedDisk sample.loggedIn fixture.statsRequest).
  - vm_compute. reflexivity.
  - discriminate.
Defined.

(** On that machine the stored address is another one than the default of
    the flag, and [cache stats] does send the request described. *)
Example cache_stats_ignores_the_stored_address :
  APIURL sample.loggedIn <> defaultAPIURL /\
  cli.sent (cli.cacheStatsCmd fixture.healthy (flagAPIURL None)
              sample.usedDisk) = [fixture.statsRequest].
Proof. split; [discriminate | vm_compute; reflexivity]. Qed.

(** After a logout the cache commands refuse without sending anything and
    [auth status] reports that nobody is logged in. *)
Theorem after_logout_nothing_is_sent Time instant Parse Format now net
    apiURL fs fs1 :
  logoutCmd fs = (None, fs1) ->
  cli.sent (cli.cacheStatsCmd net apiURL fs1) = [] /\
  cli.sent (cli.cacheClearCmd net apiURL fs1) = [] /\
  cli.failure (cli.cacheStatsCmd net apiURL fs1) =
    Some "not authenticated. Run 'armyknife auth login' first" /\
  cli.statusCmd Time instant Parse Format now fs1 =
    (None,
     [ cli.Header "Authentication Status";
       cli.Warning "❌ Not authenticated";
       cli.Info (String "010" "Run 'armyknife auth login' to authenticate") ]).
Proof.
  intros Hout. destruct (Load_after_logout fs fs1 Hout) as (u & Hu & Hload).
  unfold cli.cacheStatsCmd, cli.cacheClearCmd, cli.statusCmd.
  rewrite Hload. repeat split.
Qed.

Lemma after_logout_nothing_is_sent_witness :
  let fs1 := withFile sample.freshDisk
               (Present (Object {[ "api_url" := sample.api ]})) in
  cli.sent (cli.cacheStatsCmd fixture.healthy (flagAPIURL None) fs1) = [] /\
  cli.sent (cli.cacheClearCmd fixture.healthy (flagAPIURL None) fs1) = [] /\
  cli.failure (cli.cacheStatsCmd fixture.healthy (flagAPIURL None) fs1) =
    Some "not authenticated. Run 'armyknife auth login' first" /\
  cli.statusCmd Z (fun t => t) fixture.parseStamp fixture.printInstant 0 fs1 =
    (None,
     [ cli.Header "Authentication Status";
       cli.Warning "❌ Not authenticated";
       cli.Info (String "010" "Run 'armyknife auth login' to authenticate") ]).
Proof.
  apply (after_logout_nothing_is_sent Z (fun t => t) fixture.parseStamp
           fixture.printInstant 0 fixture.healthy (flagAPIURL None) sample.usedDisk).
  reflexivity.
Defined.



(** The health check asks without being logged in.  It sends its requests
    to [/health], [/ai/health] and [/github/rate-limit] under the base, in
    that order and never more than three; a failure of the first is the
    command's failure, as it stands and with nothing further sent; once the
    first answer is accepted the command succeeds whatever becomes of the
    other two. *)
Theorem health_check_depends_on_backend_only net unmarshalHealth apiURL fs
    cfg :
  Load fs = Ok cfg ->
  let base := if apiURL == "" then APIURL cfg else apiURL in
  let c := {| APIURL := base; AccessToken := AccessToken cfg;
              RefreshToken := RefreshToken cfg;
              TokenExpiry := TokenExpiry cfg |} in
  let run := cli.healthCmd net unmarshalHealth apiURL fs in
  (forall err,
     api.returned (api.Get net c "/health") = Err err ->
     cli.failure run = Some err /\
     cli.sent run = api.sent (api.Get net c "/health")) /\
  (forall resp,
     api.returned (api.Get net c "/health") = Ok resp ->
     unmarshalHealth (api.Data resp) = None ->
     cli.failure run = None /\
     cli.sent run =
       (api.sent (api.Get net c "/health")
        ++ api.sent (api.Get net c "/ai/health")
        ++ api.sent (api.Get net c "/github/rate-limit"))%list) /\
  (length (cli.sent run) <= 3)%nat /\
  (forall req, In req (cli.sent run) ->
     api.method req = "GET" /\ api.payload req = None /\
     (api.url req = base +:+ "/health" \/
      api.url req = base +:+ "/ai/health" \/
      api.url req = base +:+ "/github/rate-limit")).
Proof.
  intros Hload base c run.
  assert (Hc : (if negb (apiURL == "") then
                  {| APIURL := apiURL; AccessToken := AccessToken cfg;
                     RefreshToken := RefreshToken cfg;
                     TokenExpiry := TokenExpiry cfg |}
                else cfg) = c).
  { subst c base. destruct (apiURL == ""); [destruct cfg |]; reflexivity. }
  assert (Hrun : run =
            match api.returned (api.Get net c "/health") with
            | Err err =>
                {| cli.failure := Some err;
                   cli.sent := api.sent (api.Get net c "/health") |}
            | Ok resp =>
                match unmarshalHealth (api.Data resp) with
                | Some err =>
                    {| cli.failure :=
                         Some (Errorf "failed to parse health response: " err);
                       cli.sent := api.sent (api.Get net c "/health") |}
                | None =>
                    {| cli.failure := None;
                       cli.sent :=
                         (api.sent (api.Get net c "/health")
                          ++ api.sent (api.Get net c "/ai/health")
                          ++ api.sent (api.Get net c "/github/rate-limit"))%list
                    |}
                end
            end).
  { subst run. unfold cli.healthCmd. rewrite Hload, Hc. reflexivity. }
  assert (Hget : forall path req,
            In req (api.sent (api.Get net c path)) ->
            api.sent (api.Get net c path) = [req] /\
            api.method req = "GET" /\ api.payload req = None /\
            api.url req = base +:+ path).
  { intros path req Hin.
    destruct (request_without_body net c "GET" path req Hin) as [He ->].
    split; [exact He | repeat split]. }
  assert (Hlen : forall path,
            (length (api.sent (api.Get net c path)) <= 1)%nat).
  { intros path. unfold api.Get.
    destruct (request_sent net c "GET" path None) as [-> | ->]; cbn; lia. }
  rewrite Hrun. split; [| split; [| split]].
  - intros err ->. split; reflexivity.
  - intros resp -> ->. split; reflexivity.
  - pose proof (Hlen "/health"). pose proof (Hlen "/ai/health").
    pose proof (Hlen "/github/rate-limit").
    destruct (api.returned _); [destruct (unmarshalHealth _) |];
      cbn [cli.sent]; rewrite ?length_app; lia.
  - intros req.
    destruct (api.returned _); [destruct (unmarshalHealth _) |];
      cbn [cli.sent]; rewrite ?in_app_iff; intros Hin;
      repeat match goal with
             | H : _ \/ _ |- _ => destruct H
             | H : In _ (api.sent (api.Get _ _ _)) |- _ =>
                 apply Hget in H; destruct H as (_ & ? & ? & ?)
             end; auto.
Qed.

Lemma health_check_depends_on_backend_only_witness :
  let base := defaultAPIURL in
  let c := {| APIURL := base; AccessToken := "";
              RefreshToken := ""; TokenExpiry := "" |} in
  let run := cli.healthCmd fixture.degraded fixture.anyHealth (flagAPIURL None)
               sample.freshDisk in
  (forall err,
     api.returned (api.Get fixture.degraded c "/health") = Err err ->
     cli.failure run = Some err /\
     cli.sent run = api.sent (api.Get fixture.degraded c "/health")) /\
  (forall resp,
     api.returned (api.Get fixture.degraded c "/health") = Ok resp ->
     fixture.anyHealth (api.Data resp) = None ->
     cli.failure run = None /\
     cli.sent run =
       (api.sent (api.Get fixture.degraded c "/health")
        ++ api.sent (api.Get fixture.degraded c "/ai/health")
        ++ api.sent (api.Get fixture.degraded c "/github/rate-limit"))%list) /\
  (length (cli.sent run) <= 3)%nat /\
  (forall req, In req (cli.sent run) ->
     api.method req = "GET" /\ api.payload req = None /\
     (api.url req = base +:+ "/health" \/
      api.url req = base +:+ "/ai/health" \/
      api.url req = base +:+ "/github/rate-limit")).
Proof.
  apply (health_check_depends_on_backend_only fixture.degraded
           fixture.anyHealth (flagAPIURL None) sample.freshDisk defaultConfig).
  reflexivity.
Defined.

(** ** The device flow as a whole *)

Lemma prefix_append (p s : string) : String.prefix p (p +:+ s) = true.
Proof. apply String.prefix_correct, substring_head. Qed.

(** A device flow that reports an error has either failed before writing
    anything, leaving the file system as it was, or failed in the write
    itself. *)
Theorem device_flow_failure_writes_nothing fuel rfc3339 dev srv start setup
    cfg fs err fs' :
  client.AuthenticateDeviceFlow fuel rfc3339 dev srv start setup cfg fs =
    client.FlowReturned (Some err) fs' ->
  exists cause,
    (err = "failed to request device code: " +:+ cause /\ fs' = fs) \/
    (err = "failed to get token: " +:+ cause /\ fs' = fs) \/
    (err = "failed to save config: failed to write config file: " +:+ cause
     \/ err = "failed to save config: failed to get home directory: "
              +:+ cause
     \/ err = "failed to save config: failed to create config directory: "
              +:+ cause).
Proof.
  unfold client.AuthenticateDeviceFlow.
  destruct (client.requestDeviceCode _) as [deviceResp | e].
  2:{ intros [= <- <-]. exists e. auto. }
  destruct (client.pollForToken _ _ _ _ _ _ _ _)
    as [msg | | log now [token |] [e |]]; try discriminate.
  1, 3: intros [= <- <-]; exists e; auto.
  unfold Save, GetConfigPath.
  destruct (homeDir fs) as [e |]; [intros [= <- <-]; exists e; auto |].
  destruct (mkdirAll fs) as [e |]; [intros [= <- <-]; exists e; auto |].
  destruct (writeFile fs) as [[e residue] |]; [| discriminate].
  intros [= <- <-]. exists e. auto.
Qed.

Lemma device_flow_failure_writes_nothing_witness :
  exists cause,
    ("failed to get token: token error: access_denied" =
       "failed to request device code: " +:+ cause /\
     sample.usedDisk = sample.usedDisk) \/
    ("failed to get token: token error: access_denied" =
       "failed to get token: " +:+ cause /\
     sample.usedDisk = sample.usedDisk) \/
    ("failed to get token: token error: access_denied" =
       "failed to save config: failed to write config file: " +:+ cause
     \/ "failed to get token: token error: access_denied" =
        "failed to save config: failed to get home directory: " +:+ cause
     \/ "failed to get token: token error: access_denied" =
        "failed to save config: failed to create config directory: "
        +:+ cause).
Proof.
  apply (device_flow_failure_writes_nothing 3 sample.stamp
           fixture.deviceCodes sample.denied 0 sample.setup sample.loggedIn
           sample.usedDisk).
  reflexivity.
Defined.

(** A device-code answer whose [interval] is zero or negative — as when the
    member is missing — makes the flow panic in [time.NewTicker]: it never
    polls and never returns. *)
Theorem device_flow_panics_without_interval fuel rfc3339 dev srv start
    setup cfg fs deviceResp :
  client.requestDeviceCode
    (client.deviceAnswer
       (dev (APIURL cfg +:+ "/auth/github/device/code"))) =
    Ok deviceResp ->
  - maxSeconds <= client.Interval deviceResp <= 0 ->
  client.AuthenticateDeviceFlow fuel rfc3339 dev srv start setup cfg fs =
    client.FlowPanicked "non-positive interval for NewTicker".
Proof.
  intros Hdev Hint. unfold client.AuthenticateDeviceFlow. rewrite Hdev.
  unfold client.pollForToken, client.NewTicker.
  rewrite wrap64_seconds by (unfold maxSeconds in *; lia).
  destruct (Z.leb_spec (client.Interval deviceResp * Second) 0) as [_ | Hpos];
    [reflexivity | unfold Second in Hpos; lia].
Qed.

Lemma device_flow_panics_without_interval_witness :
  client.AuthenticateDeviceFlow 3 sample.stamp fixture.noInterval
    sample.pendingTwice 0 sample.setup sample.loggedIn sample.usedDisk =
    client.FlowPanicked "non-positive interval for NewTicker".
Proof.
  apply (device_flow_panics_without_interval 3 sample.stamp
           fixture.noInterval sample.pendingTwice 0 sample.setup
           sample.loggedIn sample.usedDisk
           {| client.DeviceCode := "dc-1"; client.UserCode := "WDJB-MJHT";
              client.VerificationURI := "https://github.com/login/device";
              client.DeviceExpiresIn := 900; client.Interval := 0 |}).
  - reflexivity.
  - cbn [client.Interval]. unfold maxSeconds. lia.
Defined.

(** ** More on the poll loop *)

(** A lifetime that is over before the first tick leaves no room for a
    single token check: the poller reports the timeout on that tick, having
    asked nothing.  That is so for a lifetime shorter than the interval, and
    also for one equal to it, since the ticker is created some [setup > 0]
    after the clock was read for the deadline. *)
Theorem poll_asks_nothing_when_lifetime_is_short fuel srv start setup apiURL
    deviceCode interval expiresIn :
  0 < interval <= maxSeconds ->
  - maxSeconds <= expiresIn <= maxSeconds ->
  (expiresIn - interval) * Second < setup ->
  client.pollForToken (S fuel) srv start setup apiURL deviceCode interval
    expiresIn =
    client.Returned [] (start + setup + interval * Second) None
      (Some "authorization timeout exceeded").
Proof.
  intros Hi He Hshort.
  assert (Hwi : wrap64 (interval * Second) = interval * Second)
    by (apply wrap64_seconds; unfold maxSeconds in *; lia).
  assert (Hwe : wrap64 (expiresIn * Second) = expiresIn * Second)
    by (apply wrap64_seconds; unfold maxSeconds in *; lia).
  rewrite pollForToken_loop by (rewrite Hwi; unfold Second; lia).
  cbn [client.pollLoop]. unfold client.recv, client.pollTicker,
    client.deadline. cbn [client.next client.period]. rewrite Hwi, Hwe.
  destruct (Z.leb_spec (start + setup + interval * Second) (start + setup))
    as [Hle | _]; [unfold Second in Hle; lia |].
  destruct (Z.ltb_spec (start + expiresIn * Second)
              (start + setup + interval * Second)) as [_ | Hge];
    [reflexivity | unfold Second in *; lia].
Qed.

Lemma poll_asks_nothing_when_lifetime_is_short_witness :
  client.pollForToken 1 sample.pendingTwice 0 sample.setup sample.api "dc-1"
    5 5 =
    client.Returned [] (0 + sample.setup + 5 * Second) None
      (Some "authorization timeout exceeded").
Proof.
  apply (poll_asks_nothing_when_lifetime_is_short 0 sample.pendingTwice 0
           sample.setup sample.api "dc-1" 5 5);
    unfold maxSeconds, sample.setup, Second; lia.
Defined.

(** The calls made by the loop are paced whatever the replies and however
    long they take. *)
Lemma pollLoop_paced srv url deviceCode start timeout p fuel :
  0 < p ->
  forall ticker t log log' at_ token err,
  client.period ticker = p ->
  start + (Z.of_nat (length log) + 1) * p <= client.next ticker ->
  client.paced start timeout p log ->
  client.pollLoop fuel srv url deviceCode timeout ticker t log =
    client.Returned log' at_ token err ->
  client.paced start timeout p log'.
Proof.
  intros Hp.
  induction fuel as [| fuel IH];
    intros ticker t log log' at_ token err Hper Hnx Hlog; [discriminate |].
  cbn [client.pollLoop].
  destruct (client.recv ticker t) as [now ticker'] eqn:Hr.
  apply recv_spec in Hr; [| lia].
  destruct Hr as (Hnow & Hper' & Hnext & Hadv).
  destruct (Z.ltb_spec timeout now) as [Hout | Hin];
    [intros [= <- <- <- <-]; exact Hlog |].
  assert (Hlog' : client.paced start timeout p (log ++ [now]))
    by (apply paced_snoc; [exact Hlog | lia]).
  assert (Hgo : client.pollLoop fuel srv url deviceCode timeout ticker'
                  (now + client.latency (srv url deviceCode (length log)))
                  (log ++ [now]) = client.Returned log' at_ token err ->
                client.paced start timeout p log').
  { apply IH; [lia | | exact Hlog']. rewrite length_app. cbn. lia. }
  destruct (client.checkToken _) as [[tok |] [e |]];
    try destruct (_ || _); try exact Hgo;
    intros [= <- <- <- <-]; exact Hlog'.
Qed.

(** However the replies come and however long they take, a call of
    [pollForToken] makes at most [expiresIn / interval] token checks. *)
Theorem poll_checks_at_most_lifetime_over_interval fuel srv start setup
    apiURL deviceCode interval expiresIn log at_ token err :
  0 <= setup ->
  0 < interval <= maxSeconds ->
  0 <= expiresIn <= maxSeconds ->
  client.pollForToken fuel srv start setup apiURL deviceCode interval
    expiresIn =
    client.Returned log at_ token err ->
  Z.of_nat (length log) <= expiresIn / interval.
Proof.
  intros Hsetup Hi He Hrun.
  assert (Hwi : wrap64 (interval * Second) = interval * Second)
    by (apply wrap64_seconds; unfold maxSeconds in *; lia).
  assert (Hwe : wrap64 (expiresIn * Second) = expiresIn * Second)
    by (apply wrap64_seconds; unfold maxSeconds in *; lia).
  assert (Hp : 0 < interval * Second) by (unfold Second; lia).
  rewrite pollForToken_loop in Hrun by lia.
  apply (pollLoop_paced _ _ _ (start + setup) _ (interval * Second))
    in Hrun;
    [| exact Hp | exact Hwi
     | unfold client.pollTicker; cbn [client.next length]; rewrite Hwi; lia
     | intros k c Hk; discriminate Hk].
  destruct (Nat.eq_dec (length log) 0%nat) as [-> | Hne].
  - apply Z.div_pos; lia.
  - destruct (lookup_lt_is_Some_2 log (length log - 1)%nat ltac:(lia))
      as [c Hc].
    specialize (Hrun _ _ Hc). unfold client.deadline in Hrun.
    rewrite Hwe in Hrun. apply Z.div_le_lower_bound; [lia |].
    replace (Z.of_nat (length log - 1) + 1) with (Z.of_nat (length log))
      in Hrun by lia.
    unfold Second in Hrun. nia.
Qed.

Lemma poll_checks_at_most_lifetime_over_interval_witness :
  Z.of_nat (length [5 * Second + sample.setup; 10 * Second + sample.setup])
    <= 12 / 5.
Proof.
  apply (poll_checks_at_most_lifetime_over_interval 3
           (sample.stall 1 (9 * Second)) 0 sample.setup sample.api "dc-1"
           5 12
           [5 * Second + sample.setup; 10 * Second + sample.setup]
           (19 * Second + sample.setup) None
           (Some "authorization timeout exceeded")).
  - unfold sample.setup. lia.
  - unfold maxSeconds. lia.
  - unfold maxSeconds. lia.
  - reflexivity.
Defined.

(** A token check that fails in transport, or whose body does not decode,
    ends the poll on that tick with the error as it is — unless its text
    happens to be one of the two retriable words.  The check is made only
    on a tick that comes no later than the deadline; the ticks count from
    the creation of the ticker, [setup > 0] after the clock was read, so a
    tick due exactly a lifetime after the entry is late and brings the
    timeout instead. *)
Theorem transport_error_ends_poll srv start setup apiURL deviceCode interval
    expiresIn n cause fuel :
  0 < setup ->
  0 < wrap64 (interval * Second) ->
  (forall k, (k < n)%nat ->
     client.retriable
       (client.answer (srv (client.tokenURL apiURL) deviceCode k)) = true /\
     0 <= client.latency (srv (client.tokenURL apiURL) deviceCode k)) ->
  client.answer (srv (client.tokenURL apiURL) deviceCode n) =
    client.RequestFailed cause \/
  client.answer (srv (client.tokenURL apiURL) deviceCode n) =
    client.Malformed cause ->
  cause <> "authorization_pending" -> cause <> "slow_down" ->
  client.pollTick srv (start + setup) apiURL deviceCode interval n <=
    client.deadline start expiresIn ->
  (n < fuel)%nat ->
  client.pollForToken fuel srv start setup apiURL deviceCode interval
    expiresIn =
    client.Returned
      (map (client.pollTick srv (start + setup) apiURL deviceCode interval)
         (seq 0 (S n)))
      (client.pollTick srv (start + setup) apiURL deviceCode interval n
       + client.latency (srv (client.tokenURL apiURL) deviceCode n))
      None (Some cause).
Proof.
  intros _ Hp Hretry Hans H1 H2 Hn Hfuel.
  replace fuel with (n + S (fuel - S n))%nat by lia.
  rewrite pollForToken_reaches by assumption.
  apply String.eqb_neq in H1, H2.
  destruct Hans as [-> | ->]; cbn [client.checkToken];
    rewrite H1, H2; reflexivity.
Qed.

Lemma transport_error_ends_poll_witness :
  client.pollForToken 5 fixture.unreachable 0 sample.setup sample.api "dc-1"
    5 20 =
    client.Returned [5 * Second + sample.setup] (5 * Second + sample.setup)
      None (Some "dial tcp: connection refused").
Proof.
  apply (transport_error_ends_poll fixture.unreachable 0 sample.setup
           sample.api "dc-1" 5 20 0 "dial tcp: connection refused" 5).
  - reflexivity.
  - reflexivity.
  - intros k Hk. lia.
  - left. reflexivity.
  - discriminate.
  - discriminate.
  - vm_compute. discriminate.
  - lia.
Defined.

(** With a lifetime equal to the interval the endpoint is never asked. *)
Example unreachable_endpoint_is_not_asked_on_the_deadline :
  client.pollForToken 5 fixture.unreachable 0 sample.setup sample.api "dc-1"
    5 5 =
    client.Returned [] (5 * Second + sample.setup) None
      (Some "authorization timeout exceeded").
Proof. reflexivity. Qed.

(** ** More on logging in *)



(** A login that fails for any reason other than the write of the
    configuration leaves the configuration file as it was: the same
    content, or still no file.  (Whether [GetConfigPath] had to create the
    directory for it is not recorded in [FS].) *)
Theorem failed_login_keeps_config_file inv http fs err :
  failure (loginCmd inv http fs) = Some err ->
  String.prefix "failed to save config: " err = false ->
  configFile (disk (loginCmd inv http fs)) = configFile fs.
Proof.
  assert (Hsave : forall c (k : list request),
            failure (match Save c fs with
                     | (Some e, fs') =>
                         {| failure :=
                              Some (Errorf "failed to save config: " e);
                            disk := fs'; sent := k |}
                     | (None, fs') =>
                         {| failure := None; disk := fs'; sent := k |}
                     end) = Some err ->
            String.prefix "failed to save config: " err = false ->
            configFile
              (disk (match Save c fs with
                     | (Some e, fs') =>
                         {| failure :=
                              Some (Errorf "failed to save config: " e);
                            disk := fs'; sent := k |}
                     | (None, fs') =>
                         {| failure := None; disk := fs'; sent := k |}
                     end)) = configFile fs).
  { intros c k. destruct (Save c fs) as [[e |] fs']; cbn; [| discriminate].
    intros [= <-] Hp. unfold Errorf in Hp. rewrite prefix_append in Hp.
    discriminate. }
  unfold loginCmd. destruct (Load fs) as [cfg | e]; [| reflexivity].
  cbv zeta.
  set (pat := if flagGithubPAT inv == "" then envGithubPAT inv
              else flagGithubPAT inv).
  set (apiKey := if flagAPIKey inv == "" then scanned inv
                 else flagAPIKey inv).
  destruct (negb (pat == "")).
  - unfold exchangePATForAPIKey.
    destruct (http _) as [e | e | result]; try reflexivity.
    destruct (negb (Success result)); [reflexivity |]. apply Hsave.
  - destruct (apiKey == ""); [reflexivity |].
    destruct (_ || _); [reflexivity |]. apply Hsave.
Qed.

Lemma failed_login_keeps_config_file_witness :
  configFile (disk (loginCmd (sample.withKey "sk_second_key") sample.lenient
                      sample.usedDisk)) = configFile sample.usedDisk.
Proof.
  apply (failed_login_keeps_config_file (sample.withKey "sk_second_key")
           sample.lenient sample.usedDisk "invalid API key format");
    reflexivity.
Defined.

(** An exchange that succeeds stores what the server sent, unexamined: the
    [api_key] becomes the access token and [expires_at] the expiry, the
    refresh token stays.  Unlike a key given to [--api-key] the key is not
    checked, not even for being there, so a success can leave the user
    unauthenticated. *)
Theorem exchange_stores_reply_unexamined http cfg githubPAT fs :
  failure (exchangePATForAPIKey http cfg githubPAT fs) = None ->
  APIURL cfg <> "" ->
  exists result,
    http {| reqURL := APIURL cfg +:+ "/auth/pat/exchange";
            reqGithubPAT := githubPAT |} = Decoded result /\
    Success result = true /\
    Load (disk (exchangePATForAPIKey http cfg githubPAT fs)) =
      Ok {| APIURL := APIURL cfg; AccessToken := APIKey result;
            RefreshToken := RefreshToken cfg;
            TokenExpiry := ExpiresAt result |} /\
    (APIKey result = "" ->
     forall c, Load (disk (exchangePATForAPIKey http cfg githubPAT fs))
               = Ok c -> IsAuthenticated c = false).
Proof.
  unfold exchangePATForAPIKey. intros Hrun Hurl.
  destruct (http _) as [e | e | result]; try discriminate.
  exists result. split; [reflexivity |].
  destruct (Success result); cbn [negb] in *; [| discriminate].
  split; [reflexivity |].
  destruct (Save _ fs) as [[e |] fs'] eqn:Hs; [discriminate |].
  cbn [disk]. rewrite (Load_after_Save _ fs fs' Hs). cbn [APIURL].
  apply String.eqb_neq in Hurl. rewrite Hurl. split; [reflexivity |].
  intros Hkey c [= <-]. unfold IsAuthenticated. cbn. rewrite Hkey.
  reflexivity.
Qed.

Lemma exchange_stores_reply_unexamined_witness :
  exists result,
    fixture.hollow {| reqURL := sample.api +:+ "/auth/pat/exchange";
                      reqGithubPAT := "ghp_0123456789" |} =
      Decoded result /\
    Success result = true /\
    Load (disk (exchangePATForAPIKey fixture.hollow sample.loggedIn
                  "ghp_0123456789" sample.usedDisk)) =
      Ok {| APIURL := sample.api; AccessToken := APIKey result;
            RefreshToken := "refresh-of-first-login";
            TokenExpiry := ExpiresAt result |} /\
    (APIKey result = "" ->
     forall c, Load (disk (exchangePATForAPIKey fixture.hollow
                             sample.loggedIn "ghp_0123456789"
                             sample.usedDisk)) = Ok c ->
               IsAuthenticated c = false).
Proof.
  apply (exchange_stores_reply_unexamined fixture.hollow sample.loggedIn
           "ghp_0123456789" sample.usedDisk).
  - reflexivity.
  - discriminate.
Defined.

(** ** More on the token store *)

(** Writing back what was loaded changes nothing that [Load] can see, but
    it rewrites the file from the four members the program knows: any other
    member that the file held is gone afterwards. *)
Theorem rewriting_keeps_known_members_only fs c fs' :
  Load fs = Ok c -> Save c fs = (None, fs') ->
  Load fs' = Ok c /\
  exists m,
    configFile fs' = Present (Object m) /\
    m !! "api_url" = Some (APIURL c) /\
    forall k, k <> "api_url" -> k <> "access_token" ->
      k <> "refresh_token" -> k <> "token_expiry" -> m !! k = None.
Proof.
  intros Hload Hsave. split.
  - rewrite (Load_after_Save c fs fs' Hsave).
    apply Load_APIURL in Hload. apply String.eqb_neq in Hload.
    rewrite Hload. reflexivity.
  - apply Save_ok in Hsave as (_ & _ & ->). exists (Marshal c).
    split; [reflexivity |]. unfold Marshal, omitempty.
    split.
    + destruct (TokenExpiry c == ""), (RefreshToken c == ""),
        (AccessToken c == ""); by simplify_map_eq.
    + intros k H1 H2 H3 H4.
      destruct (TokenExpiry c == ""), (RefreshToken c == ""),
        (AccessToken c == ""); by simplify_map_eq.
Qed.

Lemma rewriting_keeps_known_members_only_witness :
  Load (snd (Save sample.loggedIn fixture.themedDisk)) =
    Ok sample.loggedIn /\
  exists m,
    configFile (snd (Save sample.loggedIn fixture.themedDisk)) =
      Present (Object m) /\
    m !! "api_url" = Some sample.api /\
    forall k, k <> "api_url" -> k <> "access_token" ->
      k <> "refresh_token" -> k <> "token_expiry" -> m !! k = None.
Proof.
  apply (rewriting_keeps_known_members_only fixture.themedDisk
           sample.loggedIn).
  - vm_compute. reflexivity.
  - reflexivity.
Defined.

(** ** More on expiry formatting *)

Lemma allFrom_spec n f : forall k j,
  enum.allFrom n f k = true -> k <= j < k + Z.of_nat n -> f j = true.
Proof.
  induction n as [| n IH]; intros k j Hall Hj; [lia |].
  cbn [enum.allFrom] in Hall. apply andb_true_iff in Hall as [Hk Hrest].
  destruct (Z.eq_dec j k) as [-> | Hne]; [exact Hk |].
  apply (IH (k + 1)); [exact Hrest | lia].
Qed.

Lemma whole_days_checked :
  enum.allFrom (Z.to_nat 7321) enum.wholeDay (- 3660) = true.
Proof. vm_compute. reflexivity. Qed.

Section ExpiryDays.

Variable Time : Type.
Variable instant : Time -> Z.
Variable Parse : string -> option Time.
Variable Format : Time -> string.

(** A timestamp a whole number of days away, up to ten years either way, is
    labelled with exactly that number, without the rounding of the
    floating-point division showing: expired for any day in the past,
    "expires today" for none, "1 day" for one, and [k] days for [k]. *)
Theorem whole_days_are_counted_exactly now isoDate expiryTime k :
  isoDate <> "" -> Parse isoDate = Some expiryTime ->
  - 3660 <= k <= 3660 ->
  instant expiryTime = now + k * (24 * Hour) ->
  formatExpiryDate Time instant Parse Format now isoDate =
    Format expiryTime +:+
    (if k <? 0 then " (EXPIRED)"
     else if k =? 0 then " (expires today)"
     else if k =? 1 then " (1 day from now)"
     else " (" +:+ pretty k +:+ " days from now)").
Proof.
  intros Hne Hp Hk Hi.
  rewrite (formatExpiryDate_parsed Time instant Parse Format now isoDate
             expiryTime Hne Hp).
  rewrite (daysUntil_offset Time instant now expiryTime (k * (24 * Hour)) Hi)
    by (unfold Hour, Second; lia).
  pose proof (allFrom_spec _ _ _ k whole_days_checked ltac:(lia)) as Hday.
  unfold enum.wholeDay in Hday. apply Z.eqb_eq in Hday. rewrite Hday.
  cbv zeta. destruct (k <? 0); [reflexivity |].
  destruct (k =? 0); [reflexivity |]. destruct (k =? 1); reflexivity.
Qed.

(** Beyond the range of a [time.Duration] the distance saturates: every
    expiry further than about 292 years ahead is labelled "106751 days from
    now", and every one further than that in the past is marked expired. *)
Theorem distant_expiry_saturates now isoDate expiryTime :
  isoDate <> "" -> Parse isoDate = Some expiryTime ->
  (2 ^ 63 - 1 <= instant expiryTime - now ->
   formatExpiryDate Time instant Parse Format now isoDate =
     Format expiryTime +:+ " (106751 days from now)") /\
  (instant expiryTime - now <= - 2 ^ 63 ->
   formatExpiryDate Time instant Parse Format now isoDate =
     Format expiryTime +:+ " (EXPIRED)").
Proof.
  intros Hne Hp.
  rewrite (formatExpiryDate_parsed Time instant Parse Format now isoDate
             expiryTime Hne Hp).
  unfold daysUntil, Sub. change (2 ^ 63) with 9223372036854775808.
  split; intros Hfar.
  - rewrite Z.min_l, Z.max_r by lia. reflexivity.
  - rewrite Z.min_r, Z.max_l by lia. reflexivity.
Qed.

End ExpiryDays.

Lemma whole_days_are_counted_exactly_witness :
  formatExpiryDate Z (fun t => t) fixture.parseStamp fixture.printInstant
    (1577836800000000000 - 365 * (24 * Hour)) "2020-01-01T00:00:00Z" =
  "1577836800000000000 (365 days from now)".
Proof.
  apply (whole_days_are_counted_exactly Z (fun t => t) fixture.parseStamp
           fixture.printInstant
           (1577836800000000000 - 365 * (24 * Hour))
           "2020-01-01T00:00:00Z" 1577836800000000000 365).
  - discriminate.
  - reflexivity.
  - lia.
  - reflexivity.
Defined.

Lemma distant_expiry_saturates_witness :
  (2 ^ 63 - 1 <= 1577836800000000000 - - 9000000000000000000 ->
   formatExpiryDate Z (fun t => t) fixture.parseStamp fixture.printInstant
     (- 9000000000000000000) "2020-01-01T00:00:00Z" =
     "1577836800000000000 (106751 days from now)") /\
  (1577836800000000000 - - 9000000000000000000 <= - 2 ^ 63 ->
   formatExpiryDate Z (fun t => t) fixture.parseStamp fixture.printInstant
     (- 9000000000000000000) "2020-01-01T00:00:00Z" =
     "1577836800000000000 (EXPIRED)").
Proof.
  apply (distant_expiry_saturates Z (fun t => t) fixture.parseStamp
           fixture.printInstant (- 9000000000000000000)
           "2020-01-01T00:00:00Z" 1577836800000000000).
  - discriminate.
  - reflexivity.
Defined.

(** ** Shortening text for display *)

Lemma slice_prefix s n :
  0 <= n <= Z.of_nat (String.length s) ->
  cli.slice s 0 n = Some (substring 0 (Z.to_nat n) s) /\
  Z.of_nat (String.length (substring 0 (Z.to_nat n) s)) = n.
Proof.
  intros Hn. unfold cli.slice.
  destruct (Z.leb_spec 0 0); [| lia]. destruct (Z.leb_spec 0 n); [| lia].
  destruct (Z.leb_spec n (Z.of_nat (String.length s))); [| lia].
  cbn [andb]. rewrite Z.sub_0_r. split; [reflexivity |].
  rewrite length_substring by lia. lia.
Qed.

Lemma slice_negative s n : n < 0 -> cli.slice s 0 n = None.
Proof.
  intros Hn. unfold cli.slice.
  destruct (Z.leb_spec 0 n); [lia |]. reflexivity.
Qed.

(** [truncate] keeps its promise when the limit is at least 3: the result
    is never longer than the limit, a text within the limit is returned
    unchanged, and a longer one is cut to exactly the limit, ellipsis
    included.  With a limit below 3 a text longer than the limit makes it
    panic. *)
Theorem truncate_fits_the_limit s maxLen :
  (3 <= maxLen ->
   exists r, cli.truncate s maxLen = Some r /\
     Z.of_nat (String.length r) <= maxLen /\
     (Z.of_nat (String.length s) <= maxLen -> r = s) /\
     (maxLen < Z.of_nat (String.length s) ->
      Z.of_nat (String.length r) = maxLen /\
      r = substring 0 (Z.to_nat (maxLen - 3)) s +:+ "...")) /\
  (maxLen < 3 -> maxLen < Z.of_nat (String.length s) ->
   cli.truncate s maxLen = None).
Proof.
  unfold cli.truncate. split.
  - intros Hmax.
    destruct (Z.leb_spec (Z.of_nat (String.length s)) maxLen) as [Hle | Hgt].
    + exists s. repeat split; auto; lia.
    + destruct (slice_prefix s (maxLen - 3) ltac:(lia)) as [-> Hlen].
      eexists. split; [reflexivity |].
      rewrite length_append. cbn [String.length].
      repeat split; lia.
  - intros Hmax Hgt.
    destruct (Z.leb_spec (Z.of_nat (String.length s)) maxLen); [lia |].
    rewrite slice_negative by lia. reflexivity.
Qed.

(** [truncateText] cuts a longer text at the limit and then appends the
    ellipsis, so what it returns for such a text is three bytes longer than
    the limit; a negative limit makes it panic. *)
Theorem truncateText_exceeds_the_limit text maxLen :
  (Z.of_nat (String.length text) <= maxLen ->
   cli.truncateText text maxLen = Some text) /\
  (0 <= maxLen < Z.of_nat (String.length text) ->
   exists r, cli.truncateText text maxLen = Some r /\
     r = substring 0 (Z.to_nat maxLen) text +:+ "..." /\
     Z.of_nat (String.length r) = maxLen + 3) /\
  (maxLen < 0 -> cli.truncateText text maxLen = None).
Proof.
  unfold cli.truncateText. repeat split.
  - intros Hle.
    destruct (Z.leb_spec (Z.of_nat (String.length text)) maxLen); [| lia].
    reflexivity.
  - intros Hgt.
    destruct (Z.leb_spec (Z.of_nat (String.length text)) maxLen); [lia |].
    destruct (slice_prefix text maxLen ltac:(lia)) as [-> Hlen].
    eexists. split; [reflexivity |]. split; [reflexivity |].
    rewrite length_append. cbn [String.length]. lia.
  - intros Hneg.
    destruct (Z.leb_spec (Z.of_nat (String.length text)) maxLen); [lia |].
    rewrite slice_negative by lia. reflexivity.
Qed.

(** What a successful device flow stores is the token that the poll
    returned, whole: its [access_token], its [refresh_token] and an expiry
    counted from the instant the poll returned by its [expires_in].  The
    address is kept, so all three auth members change together and nothing
    else does. *)
Theorem device_flow_stores_polled_token fuel rfc3339 dev srv start setup
    cfg fs fs' :
  client.AuthenticateDeviceFlow fuel rfc3339 dev srv start setup cfg fs =
    client.FlowReturned None fs' ->
  let x := dev (APIURL cfg +:+ "/auth/github/device/code") in
  exists deviceResp log now token,
    client.requestDeviceCode (client.deviceAnswer x) = Ok deviceResp /\
    client.pollForToken fuel srv (start + client.deviceLatency x) setup
      (APIURL cfg) (client.DeviceCode deviceResp)
      (client.Interval deviceResp) (client.DeviceExpiresIn deviceResp) =
      client.Returned log now (Some token) None /\
    Load fs' =
      Ok {| APIURL := if APIURL cfg == "" then APIURL defaultConfig
                      else APIURL cfg;
            AccessToken := client.AccessToken token;
            RefreshToken := client.RefreshToken token;
            TokenExpiry :=
              rfc3339 (now + wrap64 (client.ExpiresIn token * Second)) |}.
Proof.
  intros H x. unfold client.AuthenticateDeviceFlow in H. fold x in H.
  destruct (client.requestDeviceCode _) as [deviceResp | e] eqn:Hdev;
    [| discriminate].
  destruct (client.pollForToken _ _ _ _ _ _ _ _)
    as [msg | | log now [token |] [e |]] eqn:Hpoll; try discriminate.
  destruct (Save _ fs) as [[e |] fs1] eqn:Hs; [discriminate |].
  injection H as <-. exists deviceResp, log, now, token.
  split; [reflexivity |]. split; [exact Hpoll |].
  rewrite (Load_after_Save _ fs fs1 Hs). cbn [client.storeToken APIURL].
  destruct (APIURL cfg == ""); reflexivity.
Qed.

Lemma device_flow_stores_polled_token_witness :
  exists deviceResp log now token,
    client.requestDeviceCode
      (client.deviceAnswer
         (fixture.deviceCodes
            (APIURL sample.loggedIn +:+ "/auth/github/device/code"))) =
      Ok deviceResp /\
    client.pollForToken 3 sample.pendingTwice
      (0 + client.deviceLatency
             (fixture.deviceCodes
                (APIURL sample.loggedIn +:+ "/auth/github/device/code")))
      sample.setup (APIURL sample.loggedIn) (client.DeviceCode deviceResp)
      (client.Interval deviceResp) (client.DeviceExpiresIn deviceResp) =
      client.Returned log now (Some token) None /\
    Load (withFile sample.usedDisk
            (Present (Object (Marshal
               (client.storeToken sample.stamp
                  (15 * Second + sample.setup) sample.loggedIn
                  sample.tokA))))) =
      Ok {| APIURL := if APIURL sample.loggedIn == ""
                      then APIURL defaultConfig
                      else APIURL sample.loggedIn;
            AccessToken := client.AccessToken token;
            RefreshToken := client.RefreshToken token;
            TokenExpiry :=
              sample.stamp
                (now + wrap64 (client.ExpiresIn token * Second)) |}.
Proof.
  apply (device_flow_stores_polled_token 3 sample.stamp
           fixture.deviceCodes sample.pendingTwice 0 sample.setup
           sample.loggedIn sample.usedDisk).
  reflexivity.
Defined.

(** ** Reading a .env file *)

Lemma spanWord_spec s : forall word tail,
  cli.spanWord s = (word, tail) ->
  s = word +:+ tail /\ cli.allWord word = true.
Proof.
  induction s as [| c s IH]; intros word tail; cbn [cli.spanWord].
  - intros [= <- <-]. split; reflexivity.
  - destruct (cli.isWord c) eqn:Hc.
    + destruct (cli.spanWord s) as [w t]. intros [= <- <-].
      destruct (IH w t eq_refl) as [-> Hw]. split; [reflexivity |].
      cbn [cli.allWord]. rewrite Hc, Hw. reflexivity.
    + intros [= <- <-]. split; reflexivity.
Qed.

Lemma spanWord_stops word : forall c rest,
  cli.allWord word = true -> cli.isWord c = false ->
  cli.spanWord (word +:+ String c rest) = (word, String c rest).
Proof.
  induction word as [| x word IH]; intros c rest Hw Hc.
  - change ("" +:+ String c rest) with (String c rest).
    cbn [cli.spanWord]. rewrite Hc. reflexivity.
  - cbn [cli.allWord] in Hw. apply andb_true_iff in Hw as [Hx Hw].
    change (String x word +:+ String c rest)
      with (String x (word +:+ String c rest)).
    cbn [cli.spanWord]. rewrite Hx, (IH c rest Hw Hc). reflexivity.
Qed.

(** What the pattern matches: an identifier, the equals sign, and a rest
    without newline. *)
Lemma FindStringSubmatch_spec line key value :
  cli.FindStringSubmatch line = Some (key, value) <->
  line = key +:+ "=" +:+ value /\ cli.isIdentifier key = true /\
  cli.hasNewline value = false.
Proof.
  split.
  - destruct line as [| c rest]; [discriminate |].
    cbn [cli.FindStringSubmatch]. destruct (cli.isLetter c) eqn:Hc;
      [| discriminate].
    destruct (cli.spanWord rest) as [word tail] eqn:Hs.
    apply spanWord_spec in Hs as [-> Hw].
    destruct tail as [| e v]; [discriminate |].
    destruct (Ascii.eqb_spec e "=") as [-> | Hne].
    + destruct (cli.hasNewline v) eqn:Hv; [discriminate |].
      intros [= <- <-]. split; [reflexivity | split; [| exact Hv]].
      cbn [cli.isIdentifier]. rewrite Hc, Hw. reflexivity.
    + destruct e as [[] [] [] [] [] [] [] []]; try discriminate.
      congruence.
  - intros (-> & Hid & Hv). destruct key as [| c word]; [discriminate |].
    cbn [cli.isIdentifier] in Hid. apply andb_true_iff in Hid as [Hc Hw].
    change (String c word +:+ "=" +:+ value)
      with (String c (word +:+ String "=" value)).
    cbn [cli.FindStringSubmatch]. rewrite Hc.
    rewrite (spanWord_stops word "=" value Hw eq_refl), Hv. reflexivity.
Qed.

Lemma scanLines_app l1 : forall l2 m,
  cli.scanLines (l1 ++ l2) m =
  match cli.scanLines l1 m with
  | Some m' => cli.scanLines l2 m'
  | None => None
  end.
Proof.
  induction l1 as [| text l1 IH]; intros l2 m; [reflexivity |].
  cbn [app cli.scanLines]. cbv zeta.
  destruct (_ || _); [apply IH |].
  destruct (cli.FindStringSubmatch _) as [[key value] |]; [| apply IH].
  destruct (_ || _); [| apply IH].
  destruct (cli.slice _ _ _); [apply IH | reflexivity].
Qed.

(** The step of the loop on one line. *)
Lemma scanLines_line text m :
  cli.scanLines [text] m = Some m \/
  exists key value,
    cli.TrimSpace text = key +:+ "=" +:+ value /\
    cli.isIdentifier key = true /\
    (cli.scanLines [text] m = None \/
     exists value', cli.scanLines [text] m = Some (<[key := value']> m)).
Proof.
  cbn [cli.scanLines]. cbv zeta.
  destruct (_ || _); [left; reflexivity |].
  destruct (cli.FindStringSubmatch _) as [[key value] |] eqn:Hm;
    [| left; reflexivity].
  apply FindStringSubmatch_spec in Hm as (Hline & Hid & _).
  right. exists key, value. split; [exact Hline | split; [exact Hid |]].
  destruct (_ || _); [| right; eexists; reflexivity].
  destruct (cli.slice _ _ _); [right; eexists; reflexivity | left; reflexivity].
Qed.

(** A line counts only if, trimmed, it is an identifier directly followed
    by the equals sign; every other line — blank, comment, [export K=v],
    [K = v], [1K=v] — is passed over in silence. *)
Theorem env_line_is_assignment_or_ignored before text after m :
  cli.scanLines (before ++ text :: after) m =
    cli.scanLines (before ++ after) m \/
  exists key value,
    cli.TrimSpace text = key +:+ "=" +:+ value /\
    cli.isIdentifier key = true.
Proof.
  rewrite !scanLines_app.
  destruct (cli.scanLines before m) as [m' |]; [| left; reflexivity].
  change (text :: after) with ([text] ++ after)%list.
  rewrite scanLines_app.
  destruct (scanLines_line text m') as [-> | (k & v & H & Hid & _)];
    [left; reflexivity | right; eauto].
Qed.

Lemma scanLines_keys lines : forall m m',
  cli.scanLines lines m = Some m' ->
  (forall k v, m !! k = Some v -> cli.isIdentifier k = true) ->
  forall k v, m' !! k = Some v -> cli.isIdentifier k = true.
Proof.
  induction lines as [| text lines IH]; intros m m' Hrun Hm.
  - injection Hrun as <-. exact Hm.
  - change (text :: lines) with ([text] ++ lines)%list in Hrun.
    rewrite scanLines_app in Hrun.
    destruct (scanLines_line text m)
      as [Hs | (key & value & _ & Hid & [Hs | [value' Hs]])];
      rewrite Hs in Hrun; [eapply IH; eassumption | discriminate |].
    eapply IH; [exact Hrun |]. intros k v Hk.
    apply lookup_insert_Some in Hk as [[<- _] | [_ Hk]]; eauto.
Qed.

(** Every name that [parseEnvFile] returns is an identifier: a letter or
    underscore followed by letters, digits and underscores. *)
Theorem env_names_are_identifiers opened lines scanErr secrets k v :
  cli.parseEnvFile opened lines scanErr = cli.Returned (Ok secrets) ->
  secrets !! k = Some v ->
  cli.isIdentifier k = true.
Proof.
  unfold cli.parseEnvFile. destruct opened; [discriminate |].
  destruct (cli.scanLines lines ∅) as [m' |] eqn:Hrun; [| discriminate].
  destruct scanErr; [discriminate |]. intros [= <-] Hk.
  apply (scanLines_keys lines ∅ m' Hrun) with (v := v); [| exact Hk].
  intros k' v' Hk'. rewrite lookup_empty in Hk'. discriminate.
Qed.

Lemma env_names_are_identifiers_witness :
  cli.isIdentifier "DB_URL" = true.
Proof.
  apply (env_names_are_identifiers None fixture.dotenv None
           (<["DB_URL" := "postgres://db"]>
              (<["TOKEN" := "a b"]> ∅)) "DB_URL" "postgres://db").
  - vm_compute. reflexivity.
  - reflexivity.
Defined.

Lemma identifier_line key value :
  cli.isIdentifier key = true ->
  (key +:+ "=" +:+ value == "") || String.prefix "#" (key +:+ "=" +:+ value)
  = false.
Proof.
  destruct key as [| c word]; [discriminate |].
  cbn [cli.isIdentifier]. intros Hc. apply andb_true_iff in Hc as [Hc _].
  change (String c word +:+ "=" +:+ value)
    with (String c (word +:+ "=" +:+ value)).
  cbn [String.eqb String.prefix orb].
  destruct (Ascii.ascii_dec "#" c) as [<- | _]; [discriminate | reflexivity].
Qed.

(** A line whose value is a lone quote, like [K='], brings the whole call
    down: the quote counts as both opening and closing, and cutting both
    off a one-byte string panics. *)
Theorem env_lone_quote_panics before text after scanErr key q :
  cli.TrimSpace text = key +:+ "=" +:+ q ->
  cli.isIdentifier key = true ->
  q = cli.dquote \/ q = cli.squote ->
  cli.parseEnvFile None (before ++ text :: after) scanErr = cli.Panicked.
Proof.
  intros Hline Hid Hq. unfold cli.parseEnvFile.
  rewrite scanLines_app.
  destruct (cli.scanLines before ∅) as [m |]; [| reflexivity].
  cbn [cli.scanLines]. cbv zeta. rewrite Hline, identifier_line by exact Hid.
  assert (Hm : cli.FindStringSubmatch (key +:+ "=" +:+ q) = Some (key, q)).
  { apply FindStringSubmatch_spec. split; [reflexivity |].
    split; [exact Hid |]. destruct Hq as [-> | ->]; reflexivity. }
  rewrite Hm. destruct Hq as [-> | ->]; reflexivity.
Qed.

Lemma env_lone_quote_panics_witness :
  cli.parseEnvFile None
    (["A=1"] ++ ("  B=" +:+ cli.dquote) :: ["C=3"]) None = cli.Panicked.
Proof.
  apply (env_lone_quote_panics ["A=1"] ("  B=" +:+ cli.dquote) ["C=3"] None
           "B" cli.dquote).
  - vm_compute. reflexivity.
  - reflexivity.
  - left. reflexivity.
Defined.

Lemma quoted_value (q : ascii) inner :
  let value := String q (inner +:+ String q "") in
  String.prefix (String q "") value = true /\
  cli.HasSuffix value (String q "") = true /\
  cli.slice value 1 (Z.of_nat (String.length value) - 1) = Some inner.
Proof.
  intros value. split; [| split].
  - subst value. cbn [String.prefix].
    destruct (Ascii.ascii_dec q q) as [_ | Hne]; [| congruence].
    destruct (inner +:+ String q ""); reflexivity.
  - unfold cli.HasSuffix.
    assert (Hlen : String.length value = S (String.length inner + 1)).
    { subst value. cbn [String.length]. rewrite length_append. reflexivity. }
    rewrite Hlen. cbn [String.length].
    replace (S (String.length inner + 1) - 1)%nat
      with (String.length (String q inner)) by (cbn; lia).
    change value with (String q inner +:+ String q "").
    assert (Hsub : substring (String.length (String q inner)) 1
                     (String q inner +:+ String q "") = String q "")
      by apply (substring_tail (String q inner) (String q "")).
    rewrite Hsub, String.eqb_refl. reflexivity.
  - unfold cli.slice.
    assert (Hlen : Z.of_nat (String.length value) =
                   Z.of_nat (String.length inner) + 2).
    { subst value. cbn [String.length]. rewrite length_append. cbn. lia. }
    rewrite Hlen.
    destruct (Z.leb_spec 0 1); [| lia].
    destruct (Z.leb_spec 1 (Z.of_nat (String.length inner) + 2 - 1)); [| lia].
    destruct (Z.leb_spec (Z.of_nat (String.length inner) + 2 - 1)
                (Z.of_nat (String.length inner) + 2)); [| lia].
    cbn [andb]. f_equal.
    replace (Z.to_nat (Z.of_nat (String.length inner) + 2 - 1 - 1))
      with (String.length inner) by lia.
    change (Z.to_nat 1) with 1%nat. subst value.
    change (substring 1 (String.length inner)
              (String q (inner +:+ String q "")))
      with (substring 0 (String.length inner) (inner +:+ String q "")).
    apply substring_head.
Qed.

(** An assignment overrides what earlier lines gave the same name, and one
    pair of matching quotes around the value, double or single, is taken
    off; a value that starts with no quote is stored as it stands. *)
Theorem env_assignment_overrides_and_unquotes before text m key value :
  cli.scanLines before ∅ = Some m ->
  cli.TrimSpace text = key +:+ "=" +:+ value ->
  cli.isIdentifier key = true ->
  cli.hasNewline value = false ->
  (forall q inner,
     q = cli.dquote \/ q = cli.squote ->
     value = q +:+ inner +:+ q ->
     cli.parseEnvFile None (before ++ [text]) None =
       cli.Returned (Ok (<[key := inner]> m))) /\
  (String.prefix cli.dquote value = false ->
   String.prefix cli.squote value = false ->
   cli.parseEnvFile None (before ++ [text]) None =
     cli.Returned (Ok (<[key := value]> m))).
Proof.
  intros Hbefore Hline Hid Hnl.
  assert (Hm : cli.FindStringSubmatch (key +:+ "=" +:+ value) =
               Some (key, value))
    by (apply FindStringSubmatch_spec; auto).
  assert (Hstep : cli.parseEnvFile None (before ++ [text]) None =
            match
              (if (String.prefix cli.dquote value
                   && cli.HasSuffix value cli.dquote)
                  || (String.prefix cli.squote value
                      && cli.HasSuffix value cli.squote)
               then
                 match cli.slice value 1
                         (Z.of_nat (String.length value) - 1) with
                 | Some value' => Some (<[key := value']> m)
                 | None => None
                 end
               else Some (<[key := value]> m))
            with
            | Some secrets => cli.Returned (Ok secrets)
            | None => cli.Panicked
            end).
  { unfold cli.parseEnvFile. rewrite scanLines_app, Hbefore.
    cbn [cli.scanLines]. cbv zeta.
    rewrite Hline, identifier_line, Hm by exact Hid.
    destruct (_ || _); [destruct (cli.slice _ _ _) |]; reflexivity. }
  rewrite Hstep. split.
  - intros q inner Hq ->.
    assert (Hquoted : exists c, q = String c "" /\
              (c = "034"%char \/ c = "'"%char))
      by (destruct Hq as [-> | ->]; eexists; split; eauto).
    destruct Hquoted as (c & -> & Hc).
    change (String c "" +:+ inner +:+ String c "")
      with (String c (inner +:+ String c "")).
    destruct (quoted_value c inner) as (Hp & Hs & Hsl). cbv zeta in *.
    rewrite Hsl.
    destruct Hc as [-> | ->]; unfold cli.dquote, cli.squote;
      rewrite Hp, Hs; cbn [andb orb]; rewrite ?orb_true_r; reflexivity.
  - intros -> ->. reflexivity.
Qed.

Lemma env_assignment_overrides_and_unquotes_witness :
  (forall q inner,
     q = cli.dquote \/ q = cli.squote ->
     "'a b'" = q +:+ inner +:+ q ->
     cli.parseEnvFile None (["TOKEN=old"; "# rotate"] ++ [" TOKEN='a b' "])
       None =
       cli.Returned (Ok (<["TOKEN" := inner]> (<["TOKEN" := "old"]> ∅)))) /\
  (String.prefix cli.dquote "'a b'" = false ->
   String.prefix cli.squote "'a b'" = false ->
   cli.parseEnvFile None (["TOKEN=old"; "# rotate"] ++ [" TOKEN='a b' "])
     None =
     cli.Returned (Ok (<["TOKEN" := "'a b'"]> (<["TOKEN" := "old"]> ∅)))).
Proof.
  apply (env_assignment_overrides_and_unquotes ["TOKEN=old"; "# rotate"]
           " TOKEN='a b' " (<["TOKEN" := "old"]> ∅) "TOKEN" "'a b'").
  - vm_compute. reflexivity.
  - vm_compute. reflexivity.
  - reflexivity.
  - reflexivity.
Defined.
